(** * lib/log/log.c: level policy, rate limiter, dispatch and hex dump

    A shallow embedding of [src/lib/log/log.c].  The process-wide variables
    of the C file ([g_rs], [g_log], [g_log_timestamps], the two thresholds)
    and the two sinks live in a [world] record that every function threads
    through a small state monad.  What the C code obtains from its
    environment (clock readings, the outcome of [pthread_spin_trylock],
    [localtime], libc's formatting of a format string) is read from an
    [env] record of oracles; the [world] counts how many readings were
    consumed so far. *)

From Stdlib Require Import ZArith List String Ascii Bool Lia.
From Stdlib Require Import Strings.Byte.
Import ListNotations.

Open Scope string_scope.
Open Scope Z_scope.

(** ** Machine integers *)

(** [wrap w x] is [x] reduced to the signed two's-complement range of a
    [w]-bit integer. *)
Definition wrap (w : Z) (x : Z) : Z :=
  (x + 2 ^ (w - 1)) mod 2 ^ w - 2 ^ (w - 1).

Definition INT_MAX : Z := 2147483647.
Definition INT_MIN : Z := -2147483648.

(** C [int] arithmetic (32 bits) and [long long] arithmetic (64 bits). *)
Definition int_c (x : Z) : Z := wrap 32 x.
Definition llong (x : Z) : Z := wrap 64 x.

Definition is_int (x : Z) : Prop := INT_MIN <= x <= INT_MAX.

(** ** Severity levels *)

(** Modelled from the spec: [enum spdk_log_level] is declared in
    [spdk/log.h], which is not among the sources.  The spec gives the ordered
    enumeration DISABLED, ERROR, WARN, NOTICE, INFO, DEBUG with increasing
    ordinal; [spdk_level_names] below uses ERROR..DEBUG as array indices, so
    ERROR is 0 and DISABLED sits below it. *)
Inductive spdk_log_level : Type :=
| SPDK_LOG_DISABLED
| SPDK_LOG_ERROR
| SPDK_LOG_WARN
| SPDK_LOG_NOTICE
| SPDK_LOG_INFO
| SPDK_LOG_DEBUG.

Definition level_ord (l : spdk_log_level) : Z :=
  match l with
  | SPDK_LOG_DISABLED => -1
  | SPDK_LOG_ERROR => 0
  | SPDK_LOG_WARN => 1
  | SPDK_LOG_NOTICE => 2
  | SPDK_LOG_INFO => 3
  | SPDK_LOG_DEBUG => 4
  end.

(** [static const char *const spdk_level_names[]]: the array has no entry
    for [SPDK_LOG_DISABLED]. *)
Definition spdk_level_names (l : spdk_log_level) : option string :=
  match l with
  | SPDK_LOG_DISABLED => None
  | SPDK_LOG_ERROR => Some "ERROR"
  | SPDK_LOG_WARN => Some "WARNING"
  | SPDK_LOG_NOTICE => Some "NOTICE"
  | SPDK_LOG_INFO => Some "INFO"
  | SPDK_LOG_DEBUG => Some "DEBUG"
  end.

(** Severities of <syslog.h>. *)
Definition LOG_ERR : Z := 3.
Definition LOG_WARNING : Z := 4.
Definition LOG_NOTICE : Z := 5.
Definition LOG_INFO : Z := 6.

Definition spdk_log_to_syslog_level (level : spdk_log_level) : Z :=
  match level with
  | SPDK_LOG_DEBUG | SPDK_LOG_INFO => LOG_INFO
  | SPDK_LOG_NOTICE => LOG_NOTICE
  | SPDK_LOG_WARN => LOG_WARNING
  | SPDK_LOG_ERROR => LOG_ERR
  | SPDK_LOG_DISABLED => -1
  end.

(** ** Process state *)

Definition VLOG_RATELIMIT_INTERVAL_DEFAULT : Z := 10.
Definition VLOG_RATELIMIT_BURST_DEFAULT : Z := 5000.
Definition MAX_TMPBUF : Z := 1024.

(** [struct ratelimit_state] without its spin lock: whether the lock can be
    taken is an answer of the environment. *)
Record ratelimit_state : Type := mk_rs {
  interval : Z;
  burst : Z;
  printed : Z;
  missed : Z;
  begin : Z
}.

Record timespec : Type := mk_timespec { tv_sec : Z; tv_nsec : Z }.

(** The fields of [struct tm] that ["%Y-%m-%d %H:%M:%S"] reads. *)
Record tm : Type := mk_tm {
  tm_year : Z; tm_mon : Z; tm_mday : Z;
  tm_hour : Z; tm_min : Z; tm_sec : Z
}.

(** Variadic arguments, as far as a call site can pass them. *)
Inductive va_arg : Type :=
| VaInt (n : Z)
| VaStr (s : string).

Definition va_list : Type := list va_arg.

(** A [logfunc *] is an address; what the function behind it does is outside
    this file, so a call through it is recorded with its raw arguments. *)
Definition logfunc : Type := positive.

Record logfunc_call : Type := mk_call {
  call_fn : logfunc;
  call_level : spdk_log_level;
  call_file : option string;
  call_line : Z;
  call_func : option string;
  call_format : string;
  call_ap : va_list
}.

Record env : Type := mk_env {
  (** the k-th reading of CLOCK_MONOTONIC and of CLOCK_REALTIME *)
  clock_monotonic : nat -> timespec;
  clock_realtime : nat -> timespec;
  (** [localtime], [None] for a NULL result *)
  localtime : Z -> option tm;
  (** what the [date] array reads as after a [strftime] whose text did not
      fit, for the call that follows the k-th reading of CLOCK_REALTIME: the
      C standard leaves the contents of the array indeterminate *)
  strftime_overflow : nat -> tm -> string;
  (** result of the k-th [pthread_spin_trylock]: 0 when the lock was taken *)
  spin_trylock : nat -> Z;
  (** the text libc's printf family produces for a format and its arguments *)
  vformat : string -> va_list -> string
}.

Record world : Type := mk_world {
  g_rs : ratelimit_state;
  g_log : option logfunc;
  g_log_timestamps : bool;
  g_spdk_log_level : spdk_log_level;
  g_spdk_log_print_level : spdk_log_level;
  (** console sink: one entry per [fprintf(stderr, ...)] *)
  stderr : list string;
  (** system-log sink: one entry per [syslog(severity, ...)] *)
  syslog : list (Z * string);
  (** calls made through [g_log] *)
  logfunc_calls : list logfunc_call;
  mono_reads : nat;
  real_reads : nat;
  lock_tries : nat
}.

(** ** Text produced by the printf family *)

Fixpoint repeat_char (c : ascii) (n : nat) : string :=
  match n with
  | O => EmptyString
  | S k => String c (repeat_char c k)
  end.

(** Right-aligns [s] in a field of [width] characters filled with [c]; a
    longer [s] is left as it is, as a printf field width does. *)
Definition pad_left (c : ascii) (width : nat) (s : string) : string :=
  repeat_char c (width - String.length s) ++ s.

(** The digit [d] (0..15) in lower case, as ["%d"] and ["%x"] print it. *)
Definition digit_char (d : Z) : ascii :=
  if d <? 10 then ascii_of_N (Z.to_N (48 + d)) else ascii_of_N (Z.to_N (87 + d)).

Fixpoint digits (base : Z) (fuel : nat) (n : Z) (acc : string) : string :=
  match fuel with
  | O => acc
  | S f =>
      let acc' := String (digit_char (n mod base)) acc in
      if n <? base then acc' else digits base f (n / base) acc'
  end.

(** Enough fuel for every digit of [n] in any base above 1. *)
Definition digit_fuel (n : Z) : nat := S (Z.to_nat (Z.log2 n)).

(** ["%u"], ["%x"] and ["%d"]. *)
Definition fmt_u (n : Z) : string := digits 10 (digit_fuel n) n EmptyString.
Definition fmt_x (n : Z) : string := digits 16 (digit_fuel n) n EmptyString.
Definition fmt_d (n : Z) : string :=
  if n <? 0 then "-" ++ fmt_u (- n) else fmt_u n.

(** ["%4d"]: the number right-aligned in at least four columns. *)
Definition fmt_4d (n : Z) : string := pad_left " " 4 (fmt_d n).

(** ["%06ld"]: zero padding goes between the sign and the digits. *)
Definition fmt_06ld (n : Z) : string :=
  if n <? 0 then "-" ++ pad_left "0" 5 (fmt_u (- n)) else pad_left "0" 6 (fmt_u n).

(** ["%08x"] of an [unsigned int] and ["%2.2x"]. *)
Definition fmt_08x (n : Z) : string := pad_left "0" 8 (fmt_x n).
Definition fmt_2_2x (n : Z) : string := pad_left " " 2 (pad_left "0" 2 (fmt_x n)).

(** ["%s"]; glibc prints a NULL pointer as ["(null)"]. *)
Definition fmt_s (s : option string) : string :=
  match s with
  | Some s => s
  | None => "(null)"
  end.

(** [snprintf]/[vsnprintf] into a buffer of [size] bytes keeps at most
    [size - 1] characters of the text. *)
Definition snprintf (size : Z) (text : string) : string :=
  substring 0 (Z.to_nat (size - 1)) text.

Definition nl : string := String (ascii_of_N 10) EmptyString.

(** ** The state monad of the process *)

Definition M (A : Type) : Type := world -> A * world.

Definition ret {A : Type} (a : A) : M A := fun w => (a, w).

Definition bind {A B : Type} (m : M A) (k : A -> M B) : M B :=
  fun w => let (a, w') := m w in k a w'.

Notation "x <- m ;; k" := (bind m (fun x => k))
  (at level 61, m at next level, right associativity).
Notation "m ;; k" := (bind m (fun _ => k))
  (at level 61, right associativity).

Definition with_rs (rs : ratelimit_state) (w : world) : world :=
  {| g_rs := rs; g_log := g_log w; g_log_timestamps := g_log_timestamps w;
     g_spdk_log_level := g_spdk_log_level w;
     g_spdk_log_print_level := g_spdk_log_print_level w;
     stderr := stderr w; syslog := syslog w; logfunc_calls := logfunc_calls w;
     mono_reads := mono_reads w; real_reads := real_reads w;
     lock_tries := lock_tries w |}.

Definition with_stderr (out : list string) (w : world) : world :=
  {| g_rs := g_rs w; g_log := g_log w; g_log_timestamps := g_log_timestamps w;
     g_spdk_log_level := g_spdk_log_level w;
     g_spdk_log_print_level := g_spdk_log_print_level w;
     stderr := out; syslog := syslog w; logfunc_calls := logfunc_calls w;
     mono_reads := mono_reads w; real_reads := real_reads w;
     lock_tries := lock_tries w |}.

Definition with_syslog (out : list (Z * string)) (w : world) : world :=
  {| g_rs := g_rs w; g_log := g_log w; g_log_timestamps := g_log_timestamps w;
     g_spdk_log_level := g_spdk_log_level w;
     g_spdk_log_print_level := g_spdk_log_print_level w;
     stderr := stderr w; syslog := out; logfunc_calls := logfunc_calls w;
     mono_reads := mono_reads w; real_reads := real_reads w;
     lock_tries := lock_tries w |}.

Definition with_calls (cs : list logfunc_call) (w : world) : world :=
  {| g_rs := g_rs w; g_log := g_log w; g_log_timestamps := g_log_timestamps w;
     g_spdk_log_level := g_spdk_log_level w;
     g_spdk_log_print_level := g_spdk_log_print_level w;
     stderr := stderr w; syslog := syslog w; logfunc_calls := cs;
     mono_reads := mono_reads w; real_reads := real_reads w;
     lock_tries := lock_tries w |}.

Definition with_reads (m r l : nat) (w : world) : world :=
  {| g_rs := g_rs w; g_log := g_log w; g_log_timestamps := g_log_timestamps w;
     g_spdk_log_level := g_spdk_log_level w;
     g_spdk_log_print_level := g_spdk_log_print_level w;
     stderr := stderr w; syslog := syslog w; logfunc_calls := logfunc_calls w;
     mono_reads := m; real_reads := r; lock_tries := l |}.

Definition with_config (f : option logfunc) (ts : bool)
    (lvl plvl : spdk_log_level) (w : world) : world :=
  {| g_rs := g_rs w; g_log := f; g_log_timestamps := ts;
     g_spdk_log_level := lvl; g_spdk_log_print_level := plvl;
     stderr := stderr w; syslog := syslog w; logfunc_calls := logfunc_calls w;
     mono_reads := mono_reads w; real_reads := real_reads w;
     lock_tries := lock_tries w |}.

(** Reads and writes of [g_rs]. *)
Definition get_rs : M ratelimit_state := fun w => (g_rs w, w).
Definition put_rs (rs : ratelimit_state) : M unit := fun w => (tt, with_rs rs w).

Definition set_interval (v : Z) (rs : ratelimit_state) : ratelimit_state :=
  mk_rs v (burst rs) (printed rs) (missed rs) (begin rs).
Definition set_burst (v : Z) (rs : ratelimit_state) : ratelimit_state :=
  mk_rs (interval rs) v (printed rs) (missed rs) (begin rs).
Definition set_printed (v : Z) (rs : ratelimit_state) : ratelimit_state :=
  mk_rs (interval rs) (burst rs) v (missed rs) (begin rs).
Definition set_missed (v : Z) (rs : ratelimit_state) : ratelimit_state :=
  mk_rs (interval rs) (burst rs) (printed rs) v (begin rs).
Definition set_begin (v : Z) (rs : ratelimit_state) : ratelimit_state :=
  mk_rs (interval rs) (burst rs) (printed rs) (missed rs) v.

Definition modify_rs (f : ratelimit_state -> ratelimit_state) : M unit :=
  fun w => (tt, with_rs (f (g_rs w)) w).

(** Calls into the environment. *)
Definition clock_gettime_monotonic (E : env) : M timespec :=
  fun w => (clock_monotonic E (mono_reads w),
            with_reads (S (mono_reads w)) (real_reads w) (lock_tries w) w).

Definition clock_gettime_realtime (E : env) : M timespec :=
  fun w => (clock_realtime E (real_reads w),
            with_reads (mono_reads w) (S (real_reads w)) (lock_tries w) w).

Definition pthread_spin_trylock (E : env) : M Z :=
  fun w => (spin_trylock E (lock_tries w),
            with_reads (mono_reads w) (real_reads w) (S (lock_tries w)) w).

Definition fprintf_stderr (text : string) : M unit :=
  fun w => (tt, with_stderr (stderr w ++ [text]) w).

Definition syslog_write (severity : Z) (text : string) : M unit :=
  fun w => (tt, with_syslog (syslog w ++ [(severity, text)]) w).

Definition call_logfunc (c : logfunc_call) : M unit :=
  fun w => (tt, with_calls (logfunc_calls w ++ [c]) w).

(** ** Level and rate-limit configuration *)

Definition spdk_log_set_level (level : spdk_log_level) : M unit :=
  fun w => (tt, with_config (g_log w) (g_log_timestamps w) level
                  (g_spdk_log_print_level w) w).

Definition spdk_log_get_level : M spdk_log_level :=
  fun w => (g_spdk_log_level w, w).

Definition spdk_log_set_print_level (level : spdk_log_level) : M unit :=
  fun w => (tt, with_config (g_log w) (g_log_timestamps w)
                  (g_spdk_log_level w) level w).

Definition spdk_log_get_print_level : M spdk_log_level :=
  fun w => (g_spdk_log_print_level w, w).

(** [usec = ts.tv_sec * 1000000 + ts.tv_nsec / 1000], in 64-bit arithmetic. *)
Definition usec_of_timespec (ts : timespec) : Z :=
  llong (llong (tv_sec ts * 1000000) + Z.quot (tv_nsec ts) 1000).

Definition get_current_system_time (E : env) : M Z :=
  ts <- clock_gettime_monotonic E ;;
  ret (usec_of_timespec ts).

(** The state the constructor [spdk_log_ratelimit_init] leaves in the
    zero-initialised [g_rs]. *)
Definition spdk_log_ratelimit_init : ratelimit_state :=
  {| interval := VLOG_RATELIMIT_INTERVAL_DEFAULT;
     burst := VLOG_RATELIMIT_BURST_DEFAULT;
     printed := 0; missed := 0; begin := 0 |}.

Definition spdk_log_ratelimit_set_interval (v : Z) : M unit :=
  modify_rs (set_interval v).

Definition spdk_log_ratelimit_get_interval : M Z :=
  fun w => (interval (g_rs w), w).

Definition spdk_log_ratelimit_set_burst (v : Z) : M unit :=
  modify_rs (set_burst v).

Definition spdk_log_ratelimit_get_burst : M Z :=
  fun w => (burst (g_rs w), w).

(** ** Timestamps *)

Definition spdk_log_enable_timestamps (value : bool) : M unit :=
  fun w => (tt, with_config (g_log w) value (g_spdk_log_level w)
                  (g_spdk_log_print_level w) w).

(** A two-column zero-padded field of [strftime] ([%m], [%d], [%H], [%M],
    [%S]). *)
Definition fmt_02d (n : Z) : string := pad_left "0" 2 (fmt_d n).

(** [strftime(date, max, "%Y-%m-%d %H:%M:%S", info)], read back from [date].
    When the text and its terminator do not fit in [max] bytes the call
    returns 0, which the caller does not look at, and what the array then
    holds is the environment's [strftime_overflow] for this call, the one
    after the [k]-th reading of the real-time clock. *)
Definition strftime (E : env) (k : nat) (max : Z) (info : tm) : string :=
  let text :=
    fmt_d (tm_year info + 1900) ++ "-" ++ fmt_02d (tm_mon info + 1) ++ "-" ++
    fmt_02d (tm_mday info) ++ " " ++ fmt_02d (tm_hour info) ++ ":" ++
    fmt_02d (tm_min info) ++ ":" ++ fmt_02d (tm_sec info) in
  if Z.of_nat (String.length text) <? max then text
  else strftime_overflow E k info.

Definition get_timestamp_prefix (E : env) (buf_size : Z) : M string :=
  fun w =>
    if negb (g_log_timestamps w) then ((EmptyString : string), w)
    else
      (ts <- clock_gettime_realtime E ;;
       let info := localtime E (tv_sec ts) in
       let usec := Z.quot (tv_nsec ts) 1000 in
       match info with
       | None =>
           ret (snprintf buf_size ("[" ++ "unknown date" ++ "." ++ fmt_06ld usec ++ "] "))
       | Some info =>
           let date := strftime E (real_reads w) 24 info in
           ret (snprintf buf_size ("[" ++ date ++ "." ++ fmt_06ld usec ++ "] "))
       end) w.

(** ** The rate limiter *)

(** The test of the window: [g_rs.begin + g_rs.interval * 1000000 < cur_time].
    The product is computed in [int], the sum in [long long]. *)
Definition window_usec (itv : Z) : Z := int_c (itv * 1000000).

Definition window_elapsed (rs : ratelimit_state) (cur_time : Z) : bool :=
  llong (begin rs + window_usec (interval rs)) <? cur_time.

(** The summary written when a window with suppressed messages ends. *)
Definition suppressed_line (timestamp : string) (rs : ratelimit_state) : string :=
  timestamp ++ ": " ++ fmt_d (missed rs) ++ " log messages suppressed, " ++
  fmt_d (printed rs) ++ " printed" ++ nl.

Definition log_print_ratelimit (E : env) : M bool :=
  rs <- get_rs ;;
  if interval rs =? 0 then ret false
  else
    busy <- pthread_spin_trylock E ;;
    if negb (busy =? 0) then ret true
    else
      (if begin rs =? 0
       then (t <- get_current_system_time E ;; modify_rs (set_begin t))
       else ret tt) ;;
      cur_time <- get_current_system_time E ;;
      rs <- get_rs ;;
      (if window_elapsed rs cur_time
       then
         (if negb (missed rs =? 0)
          then
            (timestamp <- get_timestamp_prefix E 64 ;;
             fprintf_stderr (suppressed_line timestamp rs) ;;
             modify_rs (set_missed 0))
          else ret tt) ;;
         modify_rs (set_begin cur_time) ;;
         modify_rs (set_printed 0)
       else ret tt) ;;
      rs <- get_rs ;;
      if negb (burst rs =? 0) && (burst rs >? printed rs)
      then (modify_rs (set_printed (int_c (printed rs + 1))) ;; ret true)
      else (modify_rs (set_missed (int_c (missed rs + 1))) ;; ret false).

(** ** Dispatch *)

Definition spdk_log_open (logf : option logfunc) : M unit :=
  fun w =>
    match logf with
    | Some f => (tt, with_config (Some f) (g_log_timestamps w)
                       (g_spdk_log_level w) (g_spdk_log_print_level w) w)
    | None => (tt, w)
    end.

(** The threshold test of [spdk_vlog]:
    [level > g_spdk_log_print_level && level > g_spdk_log_level]. *)
Definition level_filtered (level print_level log_level : spdk_log_level) : bool :=
  (level_ord level >? level_ord print_level) &&
  (level_ord level >? level_ord log_level).

(** ["%s:%4d:%s: *%s*: %s"], the text shared by both sinks when a file name
    is given. *)
Definition located_line (file : string) (line : Z) (func : option string)
    (level : spdk_log_level) (buf : string) : string :=
  file ++ ":" ++ fmt_4d line ++ ":" ++ fmt_s func ++ ": *" ++
  fmt_s (spdk_level_names level) ++ "*: " ++ buf.

Definition spdk_vlog (E : env) (level : spdk_log_level) (file : option string)
    (line : Z) (func : option string) (format : string) (ap : va_list) : M unit :=
  fun w =>
    match g_log w with
    | Some f => call_logfunc (mk_call f level file line func format ap) w
    | None =>
        if level_filtered level (g_spdk_log_print_level w) (g_spdk_log_level w)
        then (tt, w)
        else
          let severity := spdk_log_to_syslog_level level in
          if severity <? 0 then (tt, w)
          else
            (ok <- log_print_ratelimit E ;;
             if negb ok then ret tt
             else
               let buf := snprintf MAX_TMPBUF (vformat E format ap) in
               (fun w =>
                  if level_ord level <=? level_ord (g_spdk_log_print_level w)
                  then
                    (timestamp <- get_timestamp_prefix E 64 ;;
                     match file with
                     | Some file =>
                         fprintf_stderr (timestamp ++ located_line file line func level buf)
                     | None => fprintf_stderr (timestamp ++ buf)
                     end) w
                  else (tt, w)) ;;
               (fun w =>
                  if level_ord level <=? level_ord (g_spdk_log_level w)
                  then
                    match file with
                    | Some file =>
                        syslog_write severity (located_line file line func level buf) w
                    | None => syslog_write severity buf w
                    end
                  else (tt, w))) w
    end.

Definition spdk_log (E : env) (level : spdk_log_level) (file : option string)
    (line : Z) (func : option string) (format : string) (ap : va_list) : M unit :=
  spdk_vlog E level file line func format ap.

(** ** Hex dump *)

(** [isprint] in the "C" locale; the library never calls [setlocale]. *)
Definition isprint (b : byte) : bool :=
  let n := Byte.to_N b in ((32 <=? n) && (n <=? 126))%N.

(** The value of a [uint8_t]. *)
Definition byte_val (b : byte) : Z := Z.of_N (Byte.to_N b).

(** A [char] array read as a C string: the characters before the first NUL. *)
Fixpoint cstring (a : list ascii) : string :=
  match a with
  | [] => EmptyString
  | c :: rest => if Ascii.eqb c Ascii.zero then EmptyString else String c (cstring rest)
  end.

Fixpoint array_set (a : list ascii) (i : nat) (c : ascii) : list ascii :=
  match a, i with
  | [], _ => []
  | _ :: rest, O => c :: rest
  | x :: rest, S j => x :: array_set rest j c
  end.

(** [memset(buf16, 0, sizeof buf16)] with [char buf16[16 + 1]]. *)
Definition buf16_clear : list ascii := repeat Ascii.zero 17.

(** Local variables of [fdump]: what was written to [fp] (one entry per
    [fprintf]), [tmpbuf] as a C string, [total], and [buf16]. *)
Record dump_state : Type := mk_dump {
  d_fp : list string;
  d_tmpbuf : string;
  d_total : Z;
  d_buf16 : list ascii
}.

(** [total += snprintf(tmpbuf + total, sizeof tmpbuf - total, ...)]: the text
    lands behind the first [total] characters, cut to the room that is left,
    and [snprintf] returns the length of the whole text. *)
Definition tmpbuf_print (text : string) (st : dump_state) : dump_state :=
  {| d_fp := d_fp st;
     d_tmpbuf := substring 0 (Z.to_nat (d_total st)) (d_tmpbuf st) ++
                 snprintf (MAX_TMPBUF - d_total st) text;
     d_total := d_total st + Z.of_nat (String.length text);
     d_buf16 := d_buf16 st |}.

(** The same call with its return value dropped: [total] stays. *)
Definition tmpbuf_print_last (text : string) (st : dump_state) : dump_state :=
  {| d_fp := d_fp st;
     d_tmpbuf := substring 0 (Z.to_nat (d_total st)) (d_tmpbuf st) ++
                 snprintf (MAX_TMPBUF - d_total st) text;
     d_total := d_total st;
     d_buf16 := d_buf16 st |}.

(** [fprintf(fp, "%s\n", tmpbuf)]. *)
Definition fp_print_tmpbuf (st : dump_state) : dump_state :=
  {| d_fp := d_fp st ++ [d_tmpbuf st ++ nl];
     d_tmpbuf := d_tmpbuf st; d_total := d_total st; d_buf16 := d_buf16 st |}.

Definition UINT_MAX : Z := 4294967295.

(** One round of the first loop, for byte [b] at index [idx]. *)
Definition fdump_byte (idx : Z) (b : byte) (st : dump_state) : dump_state :=
  let st :=
    if negb (idx =? 0) && (idx mod 16 =? 0)
    then
      let st := tmpbuf_print_last (" " ++ cstring (d_buf16 st)) st in
      let st := fp_print_tmpbuf st in
      {| d_fp := d_fp st; d_tmpbuf := d_tmpbuf st; d_total := 0;
         d_buf16 := buf16_clear |}
    else st in
  let st := if idx mod 16 =? 0 then tmpbuf_print (fmt_08x idx ++ " ") st else st in
  let st := if idx mod 8 =? 0 then tmpbuf_print " " st else st in
  let st := tmpbuf_print (fmt_2_2x (Z.land (byte_val b) 255) ++ " ") st in
  {| d_fp := d_fp st; d_tmpbuf := d_tmpbuf st; d_total := d_total st;
     d_buf16 := array_set (d_buf16 st) (Z.to_nat (idx mod 16))
                  (if isprint b then ascii_of_byte b else ".") |}.

(** [for (idx = 0; idx < len; idx++)] over the bytes that are left; [idx] is
    an [unsigned int].  Returns the final [idx] with the state. *)
Fixpoint fdump_bytes (buf : list byte) (idx : Z) (st : dump_state) : Z * dump_state :=
  match buf with
  | [] => (idx, st)
  | b :: rest => fdump_bytes rest ((idx + 1) mod (UINT_MAX + 1)) (fdump_byte idx b st)
  end.

(** [for (; idx % 16 != 0; idx++)]: at most fifteen rounds. *)
Fixpoint fdump_pad (fuel : nat) (idx : Z) (st : dump_state) : dump_state :=
  match fuel with
  | O => st
  | S f =>
      if idx mod 16 =? 0 then st
      else
        let st := if idx =? 8 then tmpbuf_print " " st else st in
        fdump_pad f ((idx + 1) mod (UINT_MAX + 1)) (tmpbuf_print "   " st)
  end.

(** [fdump]; the result is what was written to [fp], one entry per
    [fprintf].  The model covers buffers of at most [UINT_MAX] bytes: on a
    longer one the C loop counter wraps and never reaches [len]. *)
Definition fdump (label : string) (buf : list byte) : list string :=
  let st := {| d_fp := [label ++ nl]; d_tmpbuf := EmptyString; d_total := 0;
               d_buf16 := buf16_clear |} in
  let (idx, st) := fdump_bytes buf 0 st in
  let st := fdump_pad 16 idx st in
  let st := tmpbuf_print_last ("  " ++ cstring (d_buf16 st)) st in
  d_fp (fp_print_tmpbuf st).

Definition spdk_log_dump (label : string) (buf : list byte) : list string :=
  fdump label buf.

(** ** Runs of the rate limiter *)

(** The window start and the current time that a call of the rate limiter
    in world [w] works with: a limiter whose [begin] is still 0 takes one
    more clock reading first and starts its window there. *)
Definition gate_window_start (E : env) (w : world) : Z :=
  if begin (g_rs w) =? 0
  then usec_of_timespec (clock_monotonic E (mono_reads w))
  else begin (g_rs w).

Definition gate_cur_time (E : env) (w : world) : Z :=
  usec_of_timespec
    (clock_monotonic E
       (if begin (g_rs w) =? 0 then S (mono_reads w) else mono_reads w)).

(** [n] calls of the rate limiter in a row, with their decisions in order. *)
Fixpoint gate_calls (E : env) (n : nat) : M (list bool) :=
  match n with
  | O => ret []
  | S k =>
      ok <- log_print_ratelimit E ;;
      oks <- gate_calls E k ;;
      ret (ok :: oks)
  end.

(** The operations that touch [g_rs]. *)
Inductive rl_op : Type :=
| OpGate
| OpSetInterval (v : Z)
| OpSetBurst (v : Z).

Definition run_op (E : env) (o : rl_op) : M (option bool) :=
  match o with
  | OpGate => ok <- log_print_ratelimit E ;; ret (Some ok)
  | OpSetInterval v => spdk_log_ratelimit_set_interval v ;; ret None
  | OpSetBurst v => spdk_log_ratelimit_set_burst v ;; ret None
  end.

(** The setters take an [int]. *)
Definition op_typed (o : rl_op) : Prop :=
  match o with
  | OpGate => True
  | OpSetInterval v | OpSetBurst v => is_int v
  end.

(** Worlds reached from a freshly initialised limiter by operations that
    each satisfy [guard] in the world they are applied to. *)
Inductive reachable (guard : world -> rl_op -> Prop) (E : env) : world -> Prop :=
| reach_init (w : world) :
    g_rs w = spdk_log_ratelimit_init -> reachable guard E w
| reach_step (w : world) (o : rl_op) :
    reachable guard E w -> op_typed o -> guard w o ->
    reachable guard E (snd (run_op E o w)).

Definition any_op (_ : world) (_ : rl_op) : Prop := True.

(** A burst setter that does not put a positive limit below the count
    already printed in the running window. *)
Definition burst_not_below_printed (w : world) (o : rl_op) : Prop :=
  match o with
  | OpSetBurst v => v <= 0 \/ printed (g_rs w) <= v
  | _ => True
  end.

(** ** Notions used to state the properties *)

(** [width] digits of [n], most significant first, leading zeros kept. *)
Fixpoint fixed_digits (base : Z) (width : nat) (n : Z) : string :=
  match width with
  | O => EmptyString
  | S k =>
      fixed_digits base k (n / base) ++ String (digit_char (n mod base)) EmptyString
  end.

Definition is_digit (c : ascii) : bool :=
  let n := N_of_ascii c in ((48 <=? n) && (n <=? 57))%N.

Definition is_letter (c : ascii) : bool :=
  let n := N_of_ascii c in
  (((65 <=? n) && (n <=? 90)) || ((97 <=? n) && (n <=? 122)))%N.

(** [s] follows the template [pat]: a letter of the template stands for one
    decimal digit, any other character for itself. *)
Fixpoint matches_template (pat s : string) : bool :=
  match pat, s with
  | EmptyString, EmptyString => true
  | String p pat', String c s' =>
      (if is_letter p then is_digit c else Ascii.eqb p c) && matches_template pat' s'
  | _, _ => false
  end.

Definition timestamp_template : string := "[YYYY-MM-DD HH:MM:SS.ssssss] ".

(** The prefix [get_timestamp_prefix] hands to its callers, and the world it
    leaves: one more reading of the wall clock when timestamps are on. *)
Definition timestamp_text (E : env) (w : world) : string :=
  fst (get_timestamp_prefix E 64 w).

Definition timestamp_world (w : world) : world :=
  if g_log_timestamps w
  then with_reads (mono_reads w) (S (real_reads w)) (lock_tries w) w
  else w.

(** A broken-down time whose year prints with four digits. *)
Definition tm_four_digit_year (info : tm) : Prop :=
  1000 <= tm_year info + 1900 <= 9999 /\
  0 <= tm_mon info <= 11 /\ 1 <= tm_mday info <= 31 /\
  0 <= tm_hour info <= 23 /\ 0 <= tm_min info <= 59 /\ 0 <= tm_sec info <= 60.

(** The console line as the specification words it, the line number printed
    bare. *)
Definition spec_console_line (timestamp file : string) (line : Z)
    (func levelname message : string) : string :=
  timestamp ++ file ++ ":" ++ fmt_d line ++ ":" ++ func ++ ": *" ++
  levelname ++ "*: " ++ message.

(** The console line with the line number right-aligned in four columns. *)
Definition console_line (timestamp file : string) (line : Z)
    (func levelname message : string) : string :=
  timestamp ++ file ++ ":" ++ pad_left " " 4 (fmt_d line) ++ ":" ++ func ++
  ": *" ++ levelname ++ "*: " ++ message.

Definition level_names : list string :=
  ["ERROR"; "WARNING"; "NOTICE"; "INFO"; "DEBUG"].

(** The allow/deny test of [log_print_ratelimit]. *)
Definition gate_decision (rs : ratelimit_state) : bool :=
  negb (burst rs =? 0) && (burst rs >? printed rs).

Definition rs_inv (rs : ratelimit_state) : Prop :=
  0 <= printed rs /\ is_int (burst rs) /\ (0 < burst rs -> printed rs <= burst rs).

(** *** Layout of the hex dump *)

Definition display_char (b : byte) : ascii :=
  if isprint b then ascii_of_byte b else ".".

Definition ascii_col (bs : list byte) : string :=
  string_of_list_ascii (map display_char bs).

Definition hex2 (b : byte) : string := fixed_digits 16 2 (byte_val b).
Definition hex8 (off : Z) : string := fixed_digits 16 8 off.

(** One blank opens each group of eight bytes. *)
Definition group_gap (j : nat) : string :=
  if ((j =? 0) || (j =? 8))%nat then " " else EmptyString.

(** The hex cells of a row whose first byte sits in column [j]: every byte
    is followed by a blank. *)
Fixpoint row_cells (j : nat) (bs : list byte) : string :=
  match bs with
  | [] => EmptyString
  | b :: rest => group_gap j ++ hex2 b ++ " " ++ row_cells (S j) rest
  end.

Definition row_head (off : Z) (bs : list byte) : string :=
  hex8 off ++ " " ++ row_cells 0 bs.

(** A row that is followed by another one, and the last row with its
    padding. *)
Definition middle_row (r : Z * list byte) : string :=
  row_head (fst r) (snd r) ++ " " ++ ascii_col (snd r) ++ nl.

Definition final_row (pad : string) (r : Z * list byte) : string :=
  row_head (fst r) (snd r) ++ pad ++ "  " ++ ascii_col (snd r) ++ nl.

(** The buffer cut into rows of sixteen bytes, each with its offset. *)
Fixpoint rows_from (fuel : nat) (off : Z) (l : list byte) : list (Z * list byte) :=
  match fuel with
  | O => []
  | S f =>
      match l with
      | [] => []
      | _ => (off, firstn 16 l) :: rows_from f (off + 16) (skipn 16 l)
      end
  end.

Definition rows (buf : list byte) : list (Z * list byte) :=
  rows_from (List.length buf) 0 buf.

(** Three blanks for each byte a row of [present] bytes lacks, and [gap]
    more. *)
Definition blank_columns (present gap : nat) : string :=
  repeat_char " " (3 * (16 - present) + gap).

(** The dump as the specification words it: after the offset one blank, the
    values separated by single blanks with one more after the eighth, blank
    columns for missing bytes, two blanks, the text; nothing but the label
    for an empty buffer. *)
Fixpoint spec_row_cells (j : nat) (bs : list byte) : string :=
  match bs with
  | [] => EmptyString
  | b :: rest =>
      (if (j =? 0)%nat then EmptyString else if (j =? 8)%nat then "  " else " ") ++
      hex2 b ++ spec_row_cells (S j) rest
  end.

Definition spec_dump_row (r : Z * list byte) : string :=
  hex8 (fst r) ++ " " ++ spec_row_cells 0 (snd r) ++
  repeat_char " " (3 * (16 - List.length (snd r))) ++
  "  " ++ ascii_col (snd r) ++ nl.

Definition spec_dump (label : string) (buf : list byte) : list string :=
  (label ++ nl) :: map spec_dump_row (rows buf).

(** The locals of [fdump] while the bytes [cur] of a row are in [tmpbuf]. *)
Definition in_row (fp : list string) (head : string) (cur : list byte) : dump_state :=
  {| d_fp := fp; d_tmpbuf := head;
     d_total := Z.of_nat (String.length head);
     d_buf16 := map display_char cur ++ repeat Ascii.zero (17 - List.length cur) |}.

(** *** Sample environment and worlds *)

(** A clock that stands still at 100 s of uptime, on 2023-11-14 22:13:20,
    and a lock that is always free. *)
Definition E_demo : env :=
  {| clock_monotonic := fun _ => mk_timespec 100 0;
     clock_realtime := fun _ => mk_timespec 1700000000 123456000;
     localtime := fun _ => Some (mk_tm 123 10 14 22 13 20);
     strftime_overflow := fun _ _ => EmptyString;
     spin_trylock := fun _ => 0;
     vformat := fun f _ => f |}.

Definition world_of (rs : ratelimit_state) (f : option logfunc) (ts : bool)
    (lvl plvl : spdk_log_level) : world :=
  {| g_rs := rs; g_log := f; g_log_timestamps := ts;
     g_spdk_log_level := lvl; g_spdk_log_print_level := plvl;
     stderr := []; syslog := []; logfunc_calls := [];
     mono_reads := 0; real_reads := 0; lock_tries := 0 |}.

Definition w_fresh : world :=
  world_of spdk_log_ratelimit_init None true SPDK_LOG_NOTICE SPDK_LOG_NOTICE.
Definition w_burst2 : world :=
  world_of (mk_rs 60 2 0 0 0) None true SPDK_LOG_DISABLED SPDK_LOG_DEBUG.
Definition w_rolled : world :=
  world_of (mk_rs 10 5 5 3 1000000) None true SPDK_LOG_NOTICE SPDK_LOG_DISABLED.
Definition w_quiet : world :=
  world_of (mk_rs 0 5000 0 0 0) None true SPDK_LOG_DISABLED SPDK_LOG_WARN.
Definition w_override : world :=
  world_of spdk_log_ratelimit_init (Some 1%positive) true
    SPDK_LOG_NOTICE SPDK_LOG_NOTICE.
Definition w_stamped : world :=
  world_of spdk_log_ratelimit_init None true SPDK_LOG_DISABLED SPDK_LOG_NOTICE.
Definition bytes17 : list byte := list_byte_of_string "ABCDEFGHIJKLMNOPQ".

Definition w_plain : world :=
  world_of spdk_log_ratelimit_init None false SPDK_LOG_DISABLED SPDK_LOG_NOTICE.

(** ** Notions used to state the further properties *)

(** A reading of the clock as [clock_gettime] delivers it, up to some
    34000 years of uptime, and the order of two readings. *)
Definition valid_timespec (ts : timespec) : Prop :=
  0 <= tv_sec ts < 2 ^ 40 /\ 0 <= tv_nsec ts < 1000000000.

Definition timespec_le (a b : timespec) : Prop :=
  tv_sec a < tv_sec b \/ (tv_sec a = tv_sec b /\ tv_nsec a <= tv_nsec b).

(** The text of a message without its timestamp: with the location when a
    file name is given, the bare formatted text otherwise. *)
Definition message_text (E : env) (level : spdk_log_level) (file : option string)
    (line : Z) (func : option string) (format : string) (ap : va_list) : string :=
  let buf := snprintf MAX_TMPBUF (vformat E format ap) in
  match file with
  | Some f => located_line f line func level buf
  | None => buf
  end.

(** The calls of the public interface that act on the logging state. *)
Inductive api_op : Type :=
| ApiOpen (logf : option logfunc)
| ApiSetLevel (level : spdk_log_level)
| ApiSetPrintLevel (level : spdk_log_level)
| ApiEnableTimestamps (value : bool)
| ApiSetInterval (v : Z)
| ApiSetBurst (v : Z)
| ApiLog (level : spdk_log_level) (file : option string) (line : Z)
    (func : option string) (format : string) (ap : va_list).

Definition run_api (E : env) (o : api_op) : M unit :=
  match o with
  | ApiOpen logf => spdk_log_open logf
  | ApiSetLevel level => spdk_log_set_level level
  | ApiSetPrintLevel level => spdk_log_set_print_level level
  | ApiEnableTimestamps value => spdk_log_enable_timestamps value
  | ApiSetInterval v => spdk_log_ratelimit_set_interval v
  | ApiSetBurst v => spdk_log_ratelimit_set_burst v
  | ApiLog level file line func format ap =>
      spdk_log E level file line func format ap
  end.

Fixpoint run_apis (E : env) (os : list api_op) : M unit :=
  match os with
  | [] => ret tt
  | o :: os => run_api E o ;; run_apis E os
  end.

Definition is_log (o : api_op) : bool :=
  match o with ApiLog _ _ _ _ _ _ => true | _ => false end.

(** *** Reading a dump back *)

Definition hex_digit_val (c : ascii) : option N :=
  let n := N_of_ascii c in
  if ((48 <=? n) && (n <=? 57))%N then Some (n - 48)%N
  else if ((97 <=? n) && (n <=? 102))%N then Some (n - 87)%N
  else None.

Definition unhex2 (c1 c2 : ascii) : option byte :=
  match hex_digit_val c1, hex_digit_val c2 with
  | Some h, Some l => Byte.of_N (16 * h + l)
  | _, _ => None
  end.

Fixpoint skip_chars (n : nat) (s : string) : string :=
  match n, s with
  | S k, String _ t => skip_chars k t
  | _, _ => s
  end.

(** Reads hex cells from column [j] on, at most [fuel] of them, and stops at
    the first place that is not a cell. *)
Fixpoint parse_cells (fuel j : nat) (s : string) : list byte :=
  match fuel with
  | O => []
  | S f =>
      let cell :=
        if ((j =? 0) || (j =? 8))%nat
        then match s with String " "%char t => Some t | _ => None end
        else Some s in
      match cell with
      | Some (String c1 (String c2 (String " "%char t))) =>
          match unhex2 c1 c2 with
          | Some b => b :: parse_cells f (S j) t
          | None => []
          end
      | _ => []
      end
  end.

(** The bytes of one line of a dump: the cells behind the offset and its
    blank. *)
Definition row_bytes (line : string) : list byte :=
  parse_cells 16 0 (skip_chars 9 line).

(** The bytes of a dump: those of every line after the label. *)
Definition dump_bytes (out : list string) : list byte :=
  List.concat (map row_bytes (tl out)).

(** The column at which the text of a row starts: 60 in a row that is
    followed by another; in the last row one more, except when the dump has
    several rows and the last holds at most eight bytes. *)
Definition text_column (len : nat) (is_last : bool) (present : nat) : nat :=
  if is_last
  then if ((present <=? 8) && (8 <? len))%nat then 60%nat else 61%nat
  else 60%nat.

(** Printable ASCII, the blank included. *)
Definition printable (c : ascii) : bool :=
  let n := N_of_ascii c in ((32 <=? n) && (n <=? 126))%N.

Fixpoint all_printable (s : string) : bool :=
  match s with
  | EmptyString => true
  | String c t => printable c && all_printable t
  end.

(** *** More sample environments and states *)

(** An environment whose lock is always held by another thread. *)
Definition E_busy : env :=
  {| clock_monotonic := clock_monotonic E_demo;
     clock_realtime := clock_realtime E_demo;
     localtime := localtime E_demo;
     strftime_overflow := strftime_overflow E_demo;
     spin_trylock := fun _ => 16;
     vformat := vformat E_demo |}.

(** An environment whose monotonic clock stands at 100 s for four readings
    and at 1000 s from then on. *)
Definition E_tick : env :=
  {| clock_monotonic :=
       fun k => if (k <? 4)%nat then mk_timespec 100 0 else mk_timespec 1000 0;
     clock_realtime := clock_realtime E_demo;
     localtime := localtime E_demo;
     strftime_overflow := strftime_overflow E_demo;
     spin_trylock := spin_trylock E_demo;
     vformat := vformat E_demo |}.

Definition w_zero_burst : world :=
  world_of (mk_rs 10 0 0 0 0) None true SPDK_LOG_NOTICE SPDK_LOG_NOTICE.
Definition w_negative : world :=
  world_of (mk_rs (-5) 1 0 0 0) None true SPDK_LOG_NOTICE SPDK_LOG_NOTICE.
Definition w_hour : world :=
  world_of (mk_rs 3600 2 0 0 0) None true SPDK_LOG_NOTICE SPDK_LOG_NOTICE.
Definition w_untimed : world :=
  world_of (mk_rs 60 2 0 0 0) None false SPDK_LOG_DISABLED SPDK_LOG_DEBUG.

(** * Properties *)

(** Closes a goal about concrete data by evaluation. *)
Ltac by_compute :=
  vm_compute; repeat split; try reflexivity;
  try (let Hc := fresh in intro Hc; discriminate Hc).

(** ** Machine arithmetic *)

Lemma int_c_small (x : Z) : INT_MIN <= x <= INT_MAX -> int_c x = x.
Proof.
  unfold INT_MIN, INT_MAX, int_c, wrap. intros H.
  change (2 ^ (32 - 1)) with 2147483648. change (2 ^ 32) with 4294967296.
  rewrite Z.mod_small; lia.
Qed.

Lemma int_c_range (x : Z) : INT_MIN <= int_c x <= INT_MAX.
Proof.
  unfold INT_MIN, INT_MAX, int_c, wrap.
  change (2 ^ (32 - 1)) with 2147483648. change (2 ^ 32) with 4294967296.
  pose proof (Z.mod_pos_bound (x + 2147483648) 4294967296). lia.
Qed.


Lemma llong_small (x : Z) : - 2 ^ 63 <= x < 2 ^ 63 -> llong x = x.
Proof.
  unfold llong, wrap. intros H.
  change (2 ^ (64 - 1)) with (2 ^ 63). change (2 ^ 64) with (2 * 2 ^ 63).
  rewrite Z.mod_small; lia.
Qed.

Lemma llong_range (x : Z) : - 2 ^ 63 <= llong x < 2 ^ 63.
Proof.
  unfold llong, wrap.
  change (2 ^ (64 - 1)) with (2 ^ 63). change (2 ^ 64) with (2 * 2 ^ 63).
  pose proof (Z.mod_pos_bound (x + 2 ^ 63) (2 * 2 ^ 63)). lia.
Qed.

(** The window is [itv] seconds long as long as the [int] product does not
    overflow, that is up to 2147 seconds. *)
Lemma window_usec_seconds (itv : Z) :
  0 <= itv <= 2147 -> window_usec itv = itv * 1000000.
Proof.
  intros H. unfold window_usec. apply int_c_small. unfold INT_MIN, INT_MAX. lia.
Qed.

Lemma usec_range (ts : timespec) :
  - 2 ^ 63 <= usec_of_timespec ts < 2 ^ 63.
Proof. apply llong_range. Qed.

(** ** Strings *)

Lemma append_assoc (a b c : string) : (a ++ b) ++ c = a ++ (b ++ c).
Proof. induction a as [|x a IH]; cbn; [reflexivity|now rewrite IH]. Qed.

Lemma append_nil_r (a : string) : a ++ EmptyString = a.
Proof. induction a as [|x a IH]; cbn; [reflexivity|now rewrite IH]. Qed.

Lemma length_append (a b : string) :
  String.length (a ++ b) = (String.length a + String.length b)%nat.
Proof. induction a as [|x a IH]; cbn; [reflexivity|now rewrite IH]. Qed.

Lemma length_repeat_char (c : ascii) (n : nat) :
  String.length (repeat_char c n) = n.
Proof. induction n; cbn; congruence. Qed.

Lemma repeat_char_snoc (c : ascii) (k : nat) :
  repeat_char c k ++ String c EmptyString = String c (repeat_char c k).
Proof. induction k; cbn; [reflexivity|]. now rewrite IHk. Qed.

Lemma substring_all (s : string) (n : nat) :
  (String.length s <= n)%nat -> substring 0 n s = s.
Proof.
  revert n. induction s as [|c s IH]; intros n H.
  - destruct n; reflexivity.
  - destruct n; cbn in *; [lia|]. rewrite IH by lia. reflexivity.
Qed.

Lemma snprintf_fits (size : Z) (s : string) :
  Z.of_nat (String.length s) < size -> snprintf size s = s.
Proof. intros H. unfold snprintf. apply substring_all. lia. Qed.

Lemma pad_left_long (c : ascii) (width : nat) (s : string) :
  (width <= String.length s)%nat -> pad_left c width s = s.
Proof.
  intros H. unfold pad_left. replace (width - String.length s)%nat with 0%nat by lia.
  reflexivity.
Qed.

Lemma repeat_char_app (c : ascii) (a b : nat) :
  repeat_char c a ++ repeat_char c b = repeat_char c (a + b).
Proof. induction a; cbn; [reflexivity|]. now rewrite IHa. Qed.

(** ** Digits *)

Section Digits.

Variable base : Z.
Hypothesis Hbase : 1 < base.

Lemma digits_acc (fuel : nat) (n : Z) (acc : string) :
  digits base fuel n acc = digits base fuel n EmptyString ++ acc.
Proof.
  revert n acc. induction fuel as [|f IH]; intros n acc; cbn.
  - reflexivity.
  - destruct (n <? base); [reflexivity|].
    rewrite IH. rewrite (IH _ (String _ EmptyString)). rewrite append_assoc. reflexivity.
Qed.

Lemma fixed_digits_zero (width : nat) :
  fixed_digits base width 0 = repeat_char "0" width.
Proof.
  induction width as [|k IH]; cbn [fixed_digits repeat_char]; [reflexivity|].
  rewrite Z.div_0_l, Z.mod_0_l by lia. rewrite IH.
  change (digit_char 0) with "0"%char. apply repeat_char_snoc.
Qed.

Lemma length_fixed_digits (width : nat) (n : Z) :
  String.length (fixed_digits base width n) = width.
Proof.
  revert n. induction width as [|k IH]; intros n; cbn; [reflexivity|].
  rewrite length_append, IH. cbn. lia.
Qed.

(** Zero padding to [width] columns gives the [width] low digits when the
    number fits. *)
Lemma pad_left_digits (width fuel : nat) (n : Z) :
  (0 < width)%nat ->
  0 <= n < base ^ Z.of_nat width -> n < base ^ Z.of_nat fuel ->
  pad_left "0" width (digits base fuel n EmptyString) = fixed_digits base width n.
Proof.
  revert fuel n.
  induction width as [|k IH]; intros fuel n Hw Hn Hf; [lia|].
  destruct fuel as [|f].
  { assert (n = 0) by (cbn in Hf; lia). subst n.
    rewrite fixed_digits_zero. unfold pad_left. cbn [digits String.length].
    rewrite Nat.sub_0_r. apply append_nil_r. }
  cbn [digits fixed_digits].
  destruct (n <? base) eqn:Hlt.
  - apply Z.ltb_lt in Hlt. rewrite Z.div_small by lia.
    rewrite fixed_digits_zero.
    unfold pad_left. cbn [String.length].
    replace (S k - 1)%nat with k by lia. reflexivity.
  - apply Z.ltb_ge in Hlt.
    assert (Hq : 0 <= n / base < base ^ Z.of_nat k).
    { split; [apply Z.div_pos; lia|].
      apply Z.div_lt_upper_bound; [lia|].
      rewrite <- Z.pow_succ_r by lia. rewrite <- Nat2Z.inj_succ. lia. }
    assert (Hqf : n / base < base ^ Z.of_nat f).
    { apply Z.div_lt_upper_bound; [lia|].
      rewrite <- Z.pow_succ_r by lia. rewrite <- Nat2Z.inj_succ. lia. }
    destruct k as [|k'].
    { cbn in Hq. assert (H : n / base = 0) by lia.
      apply Z.div_small_iff in H; lia. }
    rewrite digits_acc. rewrite <- (IH f (n / base) ltac:(lia) Hq Hqf).
    unfold pad_left. rewrite length_append. cbn [String.length].
    rewrite append_assoc. f_equal. f_equal. lia.
Qed.

(** A number of at least [base ^ width] has more than [width] digits. *)
Lemma length_digits_ge (width fuel : nat) (n : Z) :
  base ^ Z.of_nat width <= n -> n < base ^ Z.of_nat fuel ->
  (S width <= String.length (digits base fuel n EmptyString))%nat.
Proof.
  revert fuel n. induction width as [|k IH]; intros fuel n Hn Hf.
  - destruct fuel; [cbn in *; lia|]. cbn. destruct (n <? base); cbn; [lia|].
    rewrite digits_acc, length_append. cbn. lia.
  - destruct fuel as [|f].
    { cbn [Z.of_nat Z.pow] in Hf.
      assert (0 < base ^ Z.of_nat (S k)) by (apply Z.pow_pos_nonneg; lia). lia. }
    cbn [digits].
    assert (Hp : base ^ Z.of_nat (S k) = base * base ^ Z.of_nat k).
    { rewrite Nat2Z.inj_succ, Z.pow_succ_r by lia. reflexivity. }
    assert (Hpos : 0 < base ^ Z.of_nat k) by (apply Z.pow_pos_nonneg; lia).
    destruct (n <? base) eqn:Hlt.
    + apply Z.ltb_lt in Hlt. nia.
    + rewrite digits_acc, length_append. cbn [String.length].
      assert (Hq : base ^ Z.of_nat k <= n / base).
      { apply Z.div_le_lower_bound; lia. }
      assert (Hqf : n / base < base ^ Z.of_nat f).
      { apply Z.div_lt_upper_bound; [lia|].
        rewrite <- Z.pow_succ_r by lia. rewrite <- Nat2Z.inj_succ. lia. }
      specialize (IH f (n / base) Hq Hqf). lia.
Qed.

Lemma digit_fuel_enough (n : Z) :
  0 <= n -> n < base ^ Z.of_nat (digit_fuel n).
Proof.
  intros Hn. unfold digit_fuel.
  destruct (Z.eq_dec n 0) as [->|Hz].
  { cbn. lia. }
  rewrite Nat2Z.inj_succ, Z2Nat.id by apply Z.log2_nonneg.
  apply Z.lt_le_trans with (2 ^ Z.succ (Z.log2 n)).
  - apply Z.log2_spec. lia.
  - apply Z.pow_le_mono_l. lia.
Qed.

End Digits.

Lemma fmt_u_padded (width : nat) (n : Z) :
  (0 < width)%nat -> 0 <= n < 10 ^ Z.of_nat width ->
  pad_left "0" width (fmt_u n) = fixed_digits 10 width n.
Proof.
  intros Hw H. apply pad_left_digits; [lia|exact Hw|exact H|].
  apply digit_fuel_enough; lia.
Qed.

Lemma fmt_x_padded (width : nat) (n : Z) :
  (0 < width)%nat -> 0 <= n < 16 ^ Z.of_nat width ->
  pad_left "0" width (fmt_x n) = fixed_digits 16 width n.
Proof.
  intros Hw H. apply pad_left_digits; [lia|exact Hw|exact H|].
  apply digit_fuel_enough; lia.
Qed.

Lemma fmt_06ld_digits (n : Z) :
  0 <= n < 1000000 -> fmt_06ld n = fixed_digits 10 6 n.
Proof.
  intros H. unfold fmt_06ld.
  assert (Hn : (n <? 0) = false) by (apply Z.ltb_ge; lia). rewrite Hn.
  apply fmt_u_padded; [lia|cbn; lia].
Qed.

Lemma fmt_02d_digits (n : Z) :
  0 <= n < 100 -> fmt_02d n = fixed_digits 10 2 n.
Proof.
  intros H. unfold fmt_02d, fmt_d.
  assert (Hn : (n <? 0) = false) by (apply Z.ltb_ge; lia). rewrite Hn.
  apply fmt_u_padded; [lia|cbn; lia].
Qed.

Lemma fmt_08x_digits (n : Z) :
  0 <= n <= UINT_MAX -> fmt_08x n = fixed_digits 16 8 n.
Proof.
  intros H. unfold fmt_08x. apply fmt_x_padded; [lia|]. unfold UINT_MAX in H. cbn. lia.
Qed.

Lemma fmt_2_2x_digits (n : Z) :
  0 <= n < 256 -> fmt_2_2x n = fixed_digits 16 2 n.
Proof.
  intros H. unfold fmt_2_2x. rewrite fmt_x_padded by (cbn; lia).
  apply pad_left_long. rewrite length_fixed_digits. lia.
Qed.

(** A year of four digits prints as those digits. *)
Lemma fmt_d_year (y : Z) :
  1000 <= y <= 9999 -> fmt_d y = fixed_digits 10 4 y.
Proof.
  intros H. unfold fmt_d.
  assert (Hn : (y <? 0) = false) by (apply Z.ltb_ge; lia). rewrite Hn.
  rewrite <- fmt_u_padded by (cbn; lia).
  symmetry. apply pad_left_long. unfold fmt_u.
  apply (length_digits_ge 10 ltac:(lia) 3); [cbn; lia|apply digit_fuel_enough; lia].
Qed.

Lemma is_digit_digit_char (d : Z) : 0 <= d < 10 -> is_digit (digit_char d) = true.
Proof.
  intros H.
  assert (C : d = 0 \/ d = 1 \/ d = 2 \/ d = 3 \/ d = 4 \/ d = 5 \/ d = 6 \/
              d = 7 \/ d = 8 \/ d = 9) by lia.
  repeat (destruct C as [->|C]; [reflexivity|]). subst. reflexivity.
Qed.

Lemma is_digit_mod10 (n : Z) : is_digit (digit_char (n mod 10)) = true.
Proof. apply is_digit_digit_char. apply Z.mod_pos_bound. lia. Qed.

(** ** Level policy *)

(** With both thresholds at DISABLED an ERROR and a WARN message are both
    filtered: a filtered level does not make the more severe ones pass. *)
Lemma more_severe_filtered_too :
  ~ (forall L1 L2 p l,
        level_ord L1 < level_ord L2 ->
        level_filtered L2 p l = true -> level_filtered L1 p l = false).
Proof.
  intros H.
  specialize (H SPDK_LOG_ERROR SPDK_LOG_WARN SPDK_LOG_DISABLED SPDK_LOG_DISABLED).
  cbv in H. discriminate H; reflexivity.
Qed.

(** C7, amended.  For levels [L1 < L2] and fixed thresholds, a message at
    [L1] passes the threshold test of [spdk_vlog] whenever a message at [L2]
    passes it; equivalently, when [L1] is filtered out so is [L2]. *)
Theorem level_policy_monotone (L1 L2 p l : spdk_log_level) :
  level_ord L1 < level_ord L2 ->
  (level_filtered L2 p l = false -> level_filtered L1 p l = false) /\
  (level_filtered L1 p l = true -> level_filtered L2 p l = true).
Proof.
  unfold level_filtered. intros H. split; intros H0.
  - apply andb_false_iff in H0. apply andb_false_iff.
    destruct H0 as [H0|H0]; [left|right];
      apply not_true_is_false; intros Hc; apply Z.gtb_lt in Hc;
      apply not_true_iff_false in H0; apply H0; apply Z.gtb_lt; lia.
  - apply andb_true_iff in H0. destruct H0 as [Ha Hb].
    apply Z.gtb_lt in Ha, Hb.
    apply andb_true_iff; split; apply Z.gtb_lt; lia.
Qed.

Lemma level_policy_monotone_witness :
  level_filtered SPDK_LOG_ERROR SPDK_LOG_NOTICE SPDK_LOG_DISABLED = false.
Proof.
  apply (level_policy_monotone SPDK_LOG_ERROR SPDK_LOG_NOTICE
           SPDK_LOG_NOTICE SPDK_LOG_DISABLED); by_compute.
Defined.

(** ** One call of the rate limiter *)

Lemma set_begin_same (rs : ratelimit_state) : set_begin (begin rs) rs = rs.
Proof. destruct rs; reflexivity. Qed.

Ltac run_gate :=
  unfold log_print_ratelimit, get_current_system_time, bind, ret, get_rs,
    modify_rs, pthread_spin_trylock, clock_gettime_monotonic, fprintf_stderr.

Lemma gate_interval_zero (E : env) (w : world) :
  interval (g_rs w) = 0 -> log_print_ratelimit E w = (false, w).
Proof.
  intros H. unfold log_print_ratelimit, bind, get_rs. rewrite H. reflexivity.
Qed.

Lemma gate_contended (E : env) (w : world) :
  interval (g_rs w) <> 0 ->
  spin_trylock E (lock_tries w) <> 0 ->
  fst (log_print_ratelimit E w) = true /\
  g_rs (snd (log_print_ratelimit E w)) = g_rs w /\
  stderr (snd (log_print_ratelimit E w)) = stderr w.
Proof.
  intros Hi Hl. run_gate.
  apply Z.eqb_neq in Hi, Hl. rewrite Hi, Hl. cbn. auto.
Qed.

Lemma gate_same_window (E : env) (w : world) :
  interval (g_rs w) <> 0 ->
  spin_trylock E (lock_tries w) = 0 ->
  window_elapsed (set_begin (gate_window_start E w) (g_rs w)) (gate_cur_time E w) = false ->
  let r := log_print_ratelimit E w in
  fst r = gate_decision (g_rs w) /\
  g_rs (snd r) =
    (if gate_decision (g_rs w)
     then set_printed (int_c (printed (g_rs w) + 1))
            (set_begin (gate_window_start E w) (g_rs w))
     else set_missed (int_c (missed (g_rs w) + 1))
            (set_begin (gate_window_start E w) (g_rs w))) /\
  stderr (snd r) = stderr w /\
  lock_tries (snd r) = S (lock_tries w) /\
  mono_reads (snd r) =
    (if begin (g_rs w) =? 0 then S (S (mono_reads w)) else S (mono_reads w)).
Proof.
  intros Hi Hl Hw.
  unfold gate_window_start, gate_cur_time, gate_decision in *.
  run_gate.
  apply Z.eqb_neq in Hi. rewrite Hi, Hl. cbn.
  destruct (begin (g_rs w) =? 0) eqn:Hb; cbn; cbn in Hw;
    rewrite ?set_begin_same in Hw; rewrite Hw; cbn;
    destruct (negb (burst (g_rs w) =? 0) && (burst (g_rs w) >? printed (g_rs w)));
    cbn; repeat split; destruct (g_rs w); reflexivity.
Qed.

Lemma get_timestamp_prefix_eq (E : env) (w : world) :
  get_timestamp_prefix E 64 w = (timestamp_text E w, timestamp_world w).
Proof.
  unfold timestamp_text, timestamp_world, get_timestamp_prefix, bind, ret,
    clock_gettime_realtime.
  destruct (g_log_timestamps w); cbn; [|reflexivity].
  destruct (localtime E _); reflexivity.
Qed.

Lemma timestamp_text_ext (E : env) (w1 w2 : world) :
  g_log_timestamps w1 = g_log_timestamps w2 ->
  real_reads w1 = real_reads w2 ->
  timestamp_text E w1 = timestamp_text E w2.
Proof.
  unfold timestamp_text, get_timestamp_prefix, bind, ret, clock_gettime_realtime.
  intros H1 H2. rewrite H1, H2.
  destruct (g_log_timestamps w2); cbn; [|reflexivity].
  destruct (localtime E _); reflexivity.
Qed.

Lemma gate_new_window (E : env) (w : world) :
  interval (g_rs w) <> 0 ->
  spin_trylock E (lock_tries w) = 0 ->
  window_elapsed (set_begin (gate_window_start E w) (g_rs w)) (gate_cur_time E w) = true ->
  let r := log_print_ratelimit E w in
  let ok := negb (burst (g_rs w) =? 0) && (burst (g_rs w) >? 0) in
  fst r = ok /\
  g_rs (snd r) =
    {| interval := interval (g_rs w); burst := burst (g_rs w);
       printed := if ok then 1 else 0;
       missed := if ok then 0 else 1;
       begin := gate_cur_time E w |} /\
  stderr (snd r) =
    (stderr w ++
     (if missed (g_rs w) =? 0 then []
      else [suppressed_line (timestamp_text E w) (g_rs w)]))%list.
Proof.
  intros Hi Hl Hw r ok. subst r ok.
  unfold gate_window_start, gate_cur_time in *.
  run_gate.
  apply Z.eqb_neq in Hi. rewrite Hi, Hl. cbn.
  destruct (begin (g_rs w) =? 0) eqn:Hb; cbn; cbn in Hw;
    rewrite ?set_begin_same in Hw; rewrite Hw; cbn.
  all: destruct (missed (g_rs w) =? 0) eqn:Hm; cbn.
  all: try (apply Z.eqb_eq in Hm).
  all: rewrite ?get_timestamp_prefix_eq; unfold timestamp_world; cbn.
  all: destruct (g_log_timestamps w) eqn:Hts; cbn.
  all: destruct (negb (burst (g_rs w) =? 0) && (burst (g_rs w) >? 0)); cbn.
  all: rewrite ?app_nil_r.
  all: repeat split.
  all: try (destruct (g_rs w); cbn in *; subst; reflexivity).
  all: unfold suppressed_line; cbn;
    rewrite (timestamp_text_ext E _ w) by (cbn; congruence); reflexivity.
Qed.

(** [log_print_ratelimit] leaves the configuration and the system-log sink
    alone. *)
Lemma gate_frame (E : env) (w : world) :
  let w' := snd (log_print_ratelimit E w) in
  g_log w' = g_log w /\ g_log_timestamps w' = g_log_timestamps w /\
  g_spdk_log_level w' = g_spdk_log_level w /\
  g_spdk_log_print_level w' = g_spdk_log_print_level w /\
  syslog w' = syslog w /\ logfunc_calls w' = logfunc_calls w.
Proof.
  run_gate.
  destruct (interval (g_rs w) =? 0); cbn; [repeat split|].
  destruct (spin_trylock E (lock_tries w) =? 0); cbn; [|repeat split].
  destruct (begin (g_rs w) =? 0); cbn.
  all: match goal with |- context [if window_elapsed ?a ?b then _ else _] =>
         destruct (window_elapsed a b) end; cbn.
  all: try (destruct (missed (g_rs w) =? 0); cbn).
  all: rewrite ?get_timestamp_prefix_eq; unfold timestamp_world; cbn.
  all: try (destruct (g_log_timestamps w) eqn:Hts; cbn).
  all: match goal with |- context [if ?c then _ else _] => destruct c end; cbn.
  all: rewrite ?Hts; repeat split.
Qed.

Lemma gate_decision_ltb (rs : ratelimit_state) :
  0 <= printed rs -> gate_decision rs = (printed rs <? burst rs).
Proof.
  intros Hp. unfold gate_decision.
  destruct (printed rs <? burst rs) eqn:H.
  - apply Z.ltb_lt in H. apply andb_true_iff. split.
    + apply negb_true_iff, Z.eqb_neq. lia.
    + apply Z.gtb_lt. lia.
  - apply Z.ltb_ge in H. apply andb_false_iff. right.
    apply not_true_is_false. intros Hc. apply Z.gtb_lt in Hc. lia.
Qed.

(** What one call does to [g_rs], whichever path it takes: nothing (interval
    0, or the lock is busy), a count in the running window, or a count in a
    new window. *)
Lemma gate_rs_cases (E : env) (w : world) :
  let r := log_print_ratelimit E w in
  let rs := g_rs w in
  (fst r = false /\ g_rs (snd r) = rs) \/
  (fst r = true /\ g_rs (snd r) = rs) \/
  (exists b, fst r = gate_decision rs /\
     g_rs (snd r) =
       (if gate_decision rs
        then set_printed (int_c (printed rs + 1)) (set_begin b rs)
        else set_missed (int_c (missed rs + 1)) (set_begin b rs))) \/
  (exists b, fst r = (negb (burst rs =? 0) && (burst rs >? 0)) /\
     g_rs (snd r) =
       {| interval := interval rs; burst := burst rs;
          printed := if negb (burst rs =? 0) && (burst rs >? 0) then 1 else 0;
          missed := if negb (burst rs =? 0) && (burst rs >? 0) then 0 else 1;
          begin := b |}).
Proof.
  intros r rs. subst r rs.
  destruct (Z.eq_dec (interval (g_rs w)) 0) as [Hi|Hi].
  { left. rewrite (gate_interval_zero E w Hi). auto. }
  destruct (Z.eq_dec (spin_trylock E (lock_tries w)) 0) as [Hl|Hl].
  2: { right; left. destruct (gate_contended E w Hi Hl) as (H1 & H2 & _). auto. }
  destruct (window_elapsed (set_begin (gate_window_start E w) (g_rs w))
              (gate_cur_time E w)) eqn:Hw.
  - right; right; right. exists (gate_cur_time E w).
    destruct (gate_new_window E w Hi Hl Hw) as (H1 & H2 & _). auto.
  - right; right; left. exists (gate_window_start E w).
    destruct (gate_same_window E w Hi Hl Hw) as (H1 & H2 & _). auto.
Qed.

(** ** Interval 0, override, filtered levels *)

(** C3.  With [interval == 0] the rate limiter returns false and leaves the
    whole state as it was, so every call of [spdk_vlog] without an override
    has no effect at all; with print threshold WARN and log threshold
    DISABLED an ERROR message passes the threshold test and still leaves
    the console sink untouched. *)
Theorem interval_zero_suppresses_everything (E : env) (w : world) :
  interval (g_rs w) = 0 ->
  log_print_ratelimit E w = (false, w) /\
  (forall level file line func format ap,
      g_log w = None ->
      spdk_vlog E level file line func format ap w = (tt, w)) /\
  (g_log w = None ->
   g_spdk_log_print_level w = SPDK_LOG_WARN ->
   g_spdk_log_level w = SPDK_LOG_DISABLED ->
   level_filtered SPDK_LOG_ERROR (g_spdk_log_print_level w) (g_spdk_log_level w) = false /\
   forall file line func format ap,
     stderr (snd (spdk_vlog E SPDK_LOG_ERROR file line func format ap w)) = stderr w).
Proof.
  intros Hi.
  assert (Hall : forall level file line func format ap,
             g_log w = None ->
             spdk_vlog E level file line func format ap w = (tt, w)).
  { intros level file line func format ap Hg.
    unfold spdk_vlog. rewrite Hg.
    destruct (level_filtered _ _ _); [reflexivity|].
    destruct (spdk_log_to_syslog_level level <? 0); [reflexivity|].
    unfold bind. rewrite (gate_interval_zero E w Hi). reflexivity. }
  split; [now apply gate_interval_zero|]. split; [exact Hall|].
  intros Hg Hp Hl. split.
  - rewrite Hp, Hl. reflexivity.
  - intros. rewrite Hall by assumption. reflexivity.
Qed.

Lemma interval_zero_suppresses_everything_witness :
  log_print_ratelimit E_demo w_quiet = (false, w_quiet) /\
  stderr (snd (spdk_vlog E_demo SPDK_LOG_ERROR (Some "bdev.c") 42 (Some "open")
                 "failed" [] w_quiet)) = [].
Proof.
  destruct (interval_zero_suppresses_everything E_demo w_quiet eq_refl)
    as (H1 & _ & H3).
  split; [exact H1|].
  destruct (H3 eq_refl eq_refl eq_refl) as (_ & H4). apply H4.
Defined.

(** C4.  With an override installed [spdk_vlog] records one call of it with
    the raw level, file, line, function, format and arguments, and changes
    nothing else: the limiter state, both sinks and the counters of clock
    readings and lock attempts stay as they were. *)
Theorem override_receives_raw_call (E : env) (w : world) (f : logfunc)
    (level : spdk_log_level) (file : option string) (line : Z)
    (func : option string) (format : string) (ap : va_list) :
  g_log w = Some f ->
  let w' := snd (spdk_vlog E level file line func format ap w) in
  w' = with_calls (logfunc_calls w ++ [mk_call f level file line func format ap]) w /\
  g_rs w' = g_rs w /\ stderr w' = stderr w /\ syslog w' = syslog w /\
  mono_reads w' = mono_reads w /\ real_reads w' = real_reads w /\
  lock_tries w' = lock_tries w.
Proof.
  intros Hg. unfold spdk_vlog. rewrite Hg. cbn. repeat split.
Qed.

Lemma override_receives_raw_call_witness :
  snd (spdk_vlog E_demo SPDK_LOG_DEBUG (Some "bdev.c") 42 (Some "open")
         "x=%d" [VaInt 7] w_override) =
  with_calls [mk_call 1%positive SPDK_LOG_DEBUG (Some "bdev.c") 42 (Some "open")
                "x=%d" [VaInt 7]] w_override.
Proof.
  apply (override_receives_raw_call E_demo w_override 1%positive). reflexivity.
Defined.

(** C5.  Without an override, a message whose level exceeds both the print
    threshold and the log threshold leaves the world unchanged: nothing is
    written, [g_rs] keeps all its fields, and the rate limiter is not even
    asked (no lock attempt, no clock reading). *)
Theorem filtered_call_has_no_effect (E : env) (w : world)
    (level : spdk_log_level) (file : option string) (line : Z)
    (func : option string) (format : string) (ap : va_list) :
  g_log w = None ->
  level_ord level > level_ord (g_spdk_log_print_level w) ->
  level_ord level > level_ord (g_spdk_log_level w) ->
  spdk_vlog E level file line func format ap w = (tt, w).
Proof.
  intros Hg Hp Hl. unfold spdk_vlog, level_filtered. rewrite Hg.
  assert (H1 : (level_ord level >? level_ord (g_spdk_log_print_level w)) = true)
    by (apply Z.gtb_lt; lia).
  assert (H2 : (level_ord level >? level_ord (g_spdk_log_level w)) = true)
    by (apply Z.gtb_lt; lia).
  rewrite H1, H2. reflexivity.
Qed.

Lemma filtered_call_has_no_effect_witness :
  spdk_vlog E_demo SPDK_LOG_DEBUG (Some "bdev.c") 42 (Some "open") "x" [] w_stamped =
  (tt, w_stamped).
Proof.
  apply (filtered_call_has_no_effect E_demo w_stamped); by_compute.
Defined.

(** ** Window rollover *)



(** C10.  A call of [spdk_vlog] that reaches the rate limiter when the window
    has elapsed and [missed] is not 0 writes the summary line to the console
    sink whatever the thresholds are; when the message itself is above the
    print threshold (print threshold DISABLED, say, and the message due for
    the system log only) the summary is all the console receives. *)
Theorem summary_ignores_thresholds (E : env) (w : world)
    (level : spdk_log_level) (file : option string) (line : Z)
    (func : option string) (format : string) (ap : va_list) :
  g_log w = None ->
  level_filtered level (g_spdk_log_print_level w) (g_spdk_log_level w) = false ->
  level <> SPDK_LOG_DISABLED ->
  interval (g_rs w) <> 0 ->
  spin_trylock E (lock_tries w) = 0 ->
  window_elapsed (set_begin (gate_window_start E w) (g_rs w)) (gate_cur_time E w) = true ->
  missed (g_rs w) <> 0 ->
  let w' := snd (spdk_vlog E level file line func format ap w) in
  let summary := suppressed_line (timestamp_text E w) (g_rs w) in
  (exists rest, stderr w' = (stderr w ++ summary :: rest)%list) /\
  (level_ord (g_spdk_log_print_level w) < level_ord level ->
   stderr w' = (stderr w ++ [summary])%list).
Proof.
  intros Hg Hf Hd Hi Hl Hw Hm w' summary.
  destruct (gate_new_window E w Hi Hl Hw) as (H1 & H2 & H3).
  pose proof (gate_frame E w) as (_ & _ & Fl & Fp & _).
  apply Z.eqb_neq in Hm. rewrite Hm in H3.
  subst w'. unfold spdk_vlog. rewrite Hg, Hf.
  assert (Hsev : (spdk_log_to_syslog_level level <? 0) = false)
    by (destruct level; [congruence| reflexivity ..]).
  rewrite Hsev. unfold bind.
  destruct (log_print_ratelimit E w) as [ok w1]. cbn in H1, H2, H3, Fl, Fp.
  destruct ok; cbn.
  2: { split; [exists []|intros _]; exact H3. }
  rewrite Fp.
  destruct (level_ord level <=? level_ord (g_spdk_log_print_level w)) eqn:Hp.
  - rewrite get_timestamp_prefix_eq.
    assert (Herr : stderr (timestamp_world w1) = stderr w1)
      by (unfold timestamp_world; destruct (g_log_timestamps w1); reflexivity).
    split.
    + destruct file; cbn;
        match goal with |- context [if ?c then _ else _] => destruct c end;
        cbn; rewrite Herr, H3, <- app_assoc; cbn; eexists; reflexivity.
    + intros Hlt. apply Z.leb_le in Hp. lia.
  - rewrite Fl.
    split; [exists []|intros _];
      destruct (level_ord level <=? level_ord (g_spdk_log_level w));
      destruct file; cbn; exact H3.
Qed.

Lemma summary_ignores_thresholds_witness :
  stderr (snd (spdk_vlog E_demo SPDK_LOG_ERROR (Some "nvme.c") 7 (Some "probe")
                 "no device" [] w_rolled)) =
  ["[2023-11-14 22:13:20.123456] : 3 log messages suppressed, 5 printed" ++ nl].
Proof.
  apply (summary_ignores_thresholds E_demo w_rolled SPDK_LOG_ERROR); by_compute.
Defined.

(** ** Burst accounting inside one window *)

Lemma gate_calls_S (E : env) (n : nat) (w : world) :
  gate_calls E (S n) w =
  (fst (log_print_ratelimit E w) ::
     fst (gate_calls E n (snd (log_print_ratelimit E w))),
   snd (gate_calls E n (snd (log_print_ratelimit E w)))).
Proof.
  cbn [gate_calls]. unfold bind, ret.
  destruct (log_print_ratelimit E w) as [ok w1]. cbn [fst snd].
  destruct (gate_calls E n w1); reflexivity.
Qed.

Lemma map_ltb_seq_below (b start len : nat) :
  (start + len <= b)%nat ->
  map (fun k => Z.of_nat k <? Z.of_nat b) (seq start len) = repeat true len.
Proof.
  revert start. induction len as [|len IH]; intros start H; cbn [seq map repeat].
  - reflexivity.
  - rewrite IH by lia. f_equal. apply Z.ltb_lt. lia.
Qed.

Lemma map_ltb_seq_succ (b : nat) :
  map (fun k => Z.of_nat k <? Z.of_nat b) (seq 0 (S b)) = (repeat true b ++ [false])%list.
Proof.
  rewrite seq_S, map_app, map_ltb_seq_below by lia.
  cbn [Nat.add map]. now rewrite Z.ltb_irrefl.
Qed.

(** C1.  The window of the code is not [I] seconds long for every [I].  The
    test forms [g_rs.interval * 1000000] in [int]: up to 2147 seconds the
    product is the number of microseconds, from 2148 seconds on it no longer
    fits and wraps, up to 4294 seconds to a negative number, so that every
    call finds its window elapsed.  With an interval of one hour and a burst
    of 2, three calls at one and the same instant, with the lock free, are
    all allowed and none is counted as missed, although the third call lies
    in the hour that the first one opened. *)
Lemma hour_interval_defeats_burst :
  window_usec 2147 = 2147000000 /\ window_usec 2148 = -2146967296 /\
  window_usec 3600 = -694967296 /\
  let r := gate_calls E_demo 3 w_hour in
  fst r = [true; true; true] /\
  printed (g_rs (snd r)) = 1 /\ missed (g_rs (snd r)) = 0.
Proof. by_compute. Qed.

(** ** Invariant of the limiter state *)

Lemma gate_preserves_inv (E : env) (w : world) :
  rs_inv (g_rs w) -> rs_inv (g_rs (snd (log_print_ratelimit E w))).
Proof.
  intros (Hp & Hb & Hpb).
  destruct (gate_rs_cases E w) as [(_ & H)|[(_ & H)|[(b & _ & H)|(b & _ & H)]]];
    rewrite H; clear H; unfold rs_inv.
  - auto.
  - auto.
  - rewrite gate_decision_ltb by assumption.
    destruct (printed (g_rs w) <? burst (g_rs w)) eqn:Hlt; cbn.
    + apply Z.ltb_lt in Hlt. unfold is_int, INT_MIN, INT_MAX in *.
      rewrite int_c_small by (unfold INT_MIN, INT_MAX; lia). lia.
    + auto.
  - cbn. destruct (negb (burst (g_rs w) =? 0) && (burst (g_rs w) >? 0)) eqn:Hok.
    + apply andb_true_iff in Hok. destruct Hok as [_ Hok]. apply Z.gtb_lt in Hok.
      repeat split; try lia; apply Hb.
    + repeat split; try lia; apply Hb.
Qed.

Lemma reachable_inv (E : env) (w : world) :
  reachable burst_not_below_printed E w -> rs_inv (g_rs w).
Proof.
  induction 1 as [w Hinit|w o Hr IH Ht Hg].
  - rewrite Hinit. unfold rs_inv, is_int, INT_MIN, INT_MAX. cbn.
    unfold VLOG_RATELIMIT_BURST_DEFAULT. lia.
  - destruct o as [|v|v]; cbn.
    + unfold bind, ret. pose proof (gate_preserves_inv E w IH) as H.
      destruct (log_print_ratelimit E w); exact H.
    + exact IH.
    + destruct IH as (Hp & Hb & Hpb). cbn in Ht, Hg.
      unfold rs_inv. cbn. repeat split; try apply Ht; lia.
Qed.

Lemma missed_grows_on_deny (E : env) (w : world) (o : rl_op) :
  0 <= missed (g_rs w) ->
  missed (g_rs w) < missed (g_rs (snd (run_op E o w))) ->
  o = OpGate /\ fst (run_op E o w) = Some false.
Proof.
  intros Hm. destruct o as [|v|v]; cbn.
  2, 3: intros H; lia.
  unfold bind, ret.
  pose proof (gate_rs_cases E w) as H.
  destruct (log_print_ratelimit E w) as [ok w1]. cbn [fst snd] in *.
  intros Hlt. split; [reflexivity|].
  destruct H as [(Hok & H)|[(_ & H)|[(b & Hok & H)|(b & Hok & H)]]];
    rewrite H in Hlt; rewrite ?Hok.
  - reflexivity.
  - lia.
  - destruct (gate_decision (g_rs w)); cbn in Hlt; [lia|reflexivity].
  - destruct (negb (burst (g_rs w) =? 0) && (burst (g_rs w) >? 0));
      cbn in Hlt; [lia|reflexivity].
Qed.

(** Two allowed calls and then a burst of 1: [printed = 2] exceeds the
    positive [burst = 1]. *)
Lemma set_burst_breaks_invariant :
  ~ (forall (E : env) (w : world),
        reachable any_op E w ->
        0 < burst (g_rs w) -> printed (g_rs w) <= burst (g_rs w)).
Proof.
  intros H.
  assert (R : reachable any_op E_demo
                (snd (run_op E_demo (OpSetBurst 1)
                   (snd (run_op E_demo OpGate
                      (snd (run_op E_demo OpGate w_fresh))))))).
  { repeat (apply reach_step; [| cbn; unfold is_int, INT_MIN, INT_MAX; try lia; exact I | exact I]).
    apply reach_init. reflexivity. }
  specialize (H _ _ R). vm_compute in H. 
  specialize (H eq_refl). apply H. reflexivity.
Qed.

(** C6, amended.  In every state reached from the initial limiter state by
    calls of the rate limiter at arbitrary times, interval setters, and burst
    setters that do not put a positive burst below the current [printed],
    [printed <= burst] holds whenever [burst > 0]; and from such a state,
    while [missed] is not negative, an operation that makes [missed] larger
    is a call of the rate limiter that was denied. *)
Theorem printed_bounded_by_burst (E : env) (w : world) :
  reachable burst_not_below_printed E w ->
  (0 < burst (g_rs w) -> printed (g_rs w) <= burst (g_rs w)) /\
  (0 <= missed (g_rs w) ->
   forall o : rl_op,
     missed (g_rs w) < missed (g_rs (snd (run_op E o w))) ->
     o = OpGate /\ fst (run_op E o w) = Some false).
Proof.
  intros Hr. split.
  - apply (reachable_inv E w Hr).
  - intros Hm o. apply missed_grows_on_deny. exact Hm.
Qed.

Lemma printed_bounded_by_burst_witness :
  let w := snd (run_op E_demo (OpSetBurst 3) (snd (run_op E_demo OpGate w_fresh))) in
  printed (g_rs w) <= burst (g_rs w).
Proof.
  assert (R : reachable burst_not_below_printed E_demo
                (snd (run_op E_demo (OpSetBurst 3)
                   (snd (run_op E_demo OpGate w_fresh))))).
  { apply reach_step; [|by_compute|right; by_compute].
    apply reach_step; [|exact I|exact I].
    apply reach_init. reflexivity. }
  apply (proj1 (printed_bounded_by_burst E_demo _ R)). by_compute.
Defined.

(** ** The console line *)

Ltac abstract_digits :=
  repeat match goal with
  | |- context [digit_char (?x mod 10)] =>
      let c := fresh "c" in
      let H := fresh "Hc" in
      pose proof (is_digit_mod10 x) as H;
      set (c := digit_char (x mod 10)) in *; clearbody c
  end.

Lemma timestamp_when_disabled (E : env) (w : world) :
  g_log_timestamps w = false -> timestamp_text E w = EmptyString.
Proof.
  intros H. unfold timestamp_text, get_timestamp_prefix. rewrite H. reflexivity.
Qed.

Lemma timestamp_unknown_date (E : env) (w : world) :
  let now := clock_realtime E (real_reads w) in
  g_log_timestamps w = true ->
  localtime E (tv_sec now) = None ->
  0 <= tv_nsec now < 1000000000 ->
  timestamp_text E w =
    "[unknown date." ++ fixed_digits 10 6 (Z.quot (tv_nsec now) 1000) ++ "] ".
Proof.
  intros now Ht Hl Hn. unfold timestamp_text, get_timestamp_prefix.
  rewrite Ht. cbn [negb]. unfold bind, clock_gettime_realtime, ret. cbn [fst snd].
  fold now. rewrite Hl. cbn [fst].
  rewrite Z.quot_div_nonneg by lia.
  assert (Hu : 0 <= tv_nsec now / 1000 < 1000000).
  { split; [apply Z.div_pos; lia|apply Z.div_lt_upper_bound; lia]. }
  rewrite fmt_06ld_digits by exact Hu.
  cbn [fixed_digits]. abstract_digits. reflexivity.
Qed.

Lemma timestamp_matches_template (E : env) (w : world) (info : tm) :
  let now := clock_realtime E (real_reads w) in
  g_log_timestamps w = true ->
  localtime E (tv_sec now) = Some info ->
  tm_four_digit_year info ->
  0 <= tv_nsec now < 1000000000 ->
  matches_template timestamp_template (timestamp_text E w) = true.
Proof.
  intros now Ht Hl (Hy & Hmo & Hd & Hh & Hmi & Hs) Hn.
  unfold timestamp_text, get_timestamp_prefix.
  rewrite Ht. cbn [negb]. unfold bind, clock_gettime_realtime, ret. cbn [fst snd].
  fold now. rewrite Hl. cbn [fst].
  rewrite Z.quot_div_nonneg by lia.
  assert (Hu : 0 <= tv_nsec now / 1000 < 1000000).
  { split; [apply Z.div_pos; lia|apply Z.div_lt_upper_bound; lia]. }
  unfold strftime.
  rewrite fmt_06ld_digits by exact Hu.
  rewrite fmt_d_year by exact Hy.
  rewrite !fmt_02d_digits by lia.
  cbn [fixed_digits]. abstract_digits. cbv -[is_digit].
  repeat match goal with H : is_digit _ = true |- _ => rewrite H; clear H end.
  reflexivity.
Qed.

Lemma level_name_listed (level : spdk_log_level) :
  level <> SPDK_LOG_DISABLED ->
  exists name, spdk_level_names level = Some name /\ In name level_names.
Proof.
  intros H. destruct level; [congruence| | | | |];
    eexists; (split; [reflexivity|]); cbn; auto 6.
Qed.

(** An ERROR message from line 7 reaches the console with the line number
    padded to four columns, not as the bare number of the template. *)
Lemma console_line_pads_line_number :
  let w' := snd (spdk_vlog E_demo SPDK_LOG_ERROR (Some "nvme.c") 7
                   (Some "probe") "no device" [] w_plain) in
  stderr w' = ["nvme.c:   7:probe: *ERROR*: no device"] /\
  stderr w' <> [spec_console_line EmptyString "nvme.c" 7 "probe" "ERROR" "no device"].
Proof.
  vm_compute. split; [reflexivity|]. intros H. discriminate H.
Qed.

(** C8, amended.  A call of [spdk_vlog] with a file and a function name that
    reaches the console sink (no override, level within the print
    threshold, allowed by the rate limiter) appends exactly the line
    [<timestamp><file>:<line>:<func>: *<LEVELNAME>*: <message>] with the
    line number right-aligned in a field of at least four columns, the
    level name one of ERROR, WARNING, NOTICE, INFO, DEBUG and the message
    cut to 1023 bytes.  The timestamp is empty when timestamps are off;
    when they are on it follows ["[YYYY-MM-DD HH:MM:SS.ssssss] "] if the
    local time has a four-digit year, and is
    ["[unknown date.ssssss] "] if [localtime] fails. *)
Theorem console_line_format (E : env) (w : world) (level : spdk_log_level)
    (file : option string) (line : Z) (func : option string)
    (format : string) (ap : va_list) (f fn : string) :
  g_log w = None -> file = Some f -> func = Some fn ->
  level <> SPDK_LOG_DISABLED ->
  level_ord level <= level_ord (g_spdk_log_print_level w) ->
  fst (log_print_ratelimit E w) = true ->
  let w1 := snd (log_print_ratelimit E w) in
  let now := clock_realtime E (real_reads w1) in
  let ts := timestamp_text E w1 in
  let msg := snprintf MAX_TMPBUF (vformat E format ap) in
  exists name,
    spdk_level_names level = Some name /\ In name level_names /\
    stderr (snd (spdk_vlog E level file line func format ap w)) =
      (stderr w1 ++ [console_line ts f line fn name msg])%list /\
    (g_log_timestamps w = false -> ts = EmptyString) /\
    (g_log_timestamps w = true -> 0 <= tv_nsec now < 1000000000 ->
     (forall info, localtime E (tv_sec now) = Some info ->
                   tm_four_digit_year info ->
                   matches_template timestamp_template ts = true) /\
     (localtime E (tv_sec now) = None ->
      ts = "[unknown date." ++ fixed_digits 10 6 (Z.quot (tv_nsec now) 1000) ++ "] ")).
Proof.
  intros Hg Hfile Hfunc Hd Hp Hok w1 now ts msg.
  destruct (level_name_listed level Hd) as (name & Hname & Hin).
  pose proof (gate_frame E w) as (_ & Fts & Fl & Fp & _). fold w1 in Fts, Fl, Fp.
  exists name. split; [exact Hname|]. split; [exact Hin|]. split; [|split].
  - unfold spdk_vlog. rewrite Hg.
    assert (Hf : level_filtered level (g_spdk_log_print_level w) (g_spdk_log_level w) = false).
    { unfold level_filtered. apply andb_false_iff. left.
      apply not_true_is_false. intros Hc. apply Z.gtb_lt in Hc. lia. }
    rewrite Hf.
    assert (Hsev : (spdk_log_to_syslog_level level <? 0) = false)
      by (destruct level; [congruence| reflexivity ..]).
    rewrite Hsev. unfold bind.
    subst w1 ts. destruct (log_print_ratelimit E w) as [ok w1].
    cbn [fst snd] in *. subst ok. cbn [negb].
    rewrite Fp.
    assert (Hle : (level_ord level <=? level_ord (g_spdk_log_print_level w)) = true)
      by (apply Z.leb_le; exact Hp).
    rewrite Hle. rewrite get_timestamp_prefix_eq. subst file func.
    assert (Herr : stderr (timestamp_world w1) = stderr w1)
      by (unfold timestamp_world; destruct (g_log_timestamps w1); reflexivity).
    unfold fprintf_stderr, located_line, fmt_4d, console_line. rewrite Hname. cbn [fmt_s].
    match goal with |- context [if ?c then _ else _] => destruct c end;
      cbn; rewrite Herr; reflexivity.
  - intros Hoff. apply timestamp_when_disabled. congruence.
  - intros Hon Hns. split.
    + intros info Hl Hcal. apply (timestamp_matches_template E w1 info);
        [congruence|exact Hl|exact Hcal|exact Hns].
    + intros Hl. apply (timestamp_unknown_date E w1); [congruence|exact Hl|exact Hns].
Qed.

Lemma console_line_format_witness :
  stderr (snd (spdk_vlog E_demo SPDK_LOG_ERROR (Some "nvme.c") 7 (Some "probe")
                 "no device" [] w_stamped)) =
  ["[2023-11-14 22:13:20.123456] nvme.c:   7:probe: *ERROR*: no device"].
Proof.
  destruct (console_line_format E_demo w_stamped SPDK_LOG_ERROR (Some "nvme.c") 7
              (Some "probe") "no device" [] "nvme.c" "probe"
              eq_refl eq_refl eq_refl ltac:(discriminate) ltac:(by_compute)
              eq_refl)
    as (name & Hname & _ & Hline & _).
  injection Hname as <-. exact Hline.
Defined.

(** ** The hex dump *)

(** *** Writes into [tmpbuf] and [buf16] *)

Lemma tmpbuf_print_in_row (text : string) (fp : list string) (head : string)
    (cur : list byte) :
  (String.length head + String.length text < 1024)%nat ->
  tmpbuf_print text (in_row fp head cur) = in_row fp (head ++ text) cur.
Proof.
  intros H. unfold tmpbuf_print, in_row. cbn [d_fp d_tmpbuf d_total d_buf16].
  rewrite Nat2Z.id, substring_all by lia.
  rewrite snprintf_fits by (unfold MAX_TMPBUF; lia).
  rewrite length_append, Nat2Z.inj_add. reflexivity.
Qed.

Lemma tmpbuf_print_last_in_row (text : string) (fp : list string)
    (head : string) (cur : list byte) :
  (String.length head + String.length text < 1024)%nat ->
  tmpbuf_print_last text (in_row fp head cur) =
  {| d_fp := fp; d_tmpbuf := head ++ text;
     d_total := Z.of_nat (String.length head);
     d_buf16 := d_buf16 (in_row fp head cur) |}.
Proof.
  intros H. unfold tmpbuf_print_last, in_row. cbn [d_fp d_tmpbuf d_total d_buf16].
  rewrite Nat2Z.id, substring_all by lia.
  rewrite snprintf_fits by (unfold MAX_TMPBUF; lia). reflexivity.
Qed.

Lemma tmpbuf_print_at_start (text : string) (fp : list string) (old : string) :
  (String.length text < 1024)%nat ->
  tmpbuf_print text
    {| d_fp := fp; d_tmpbuf := old; d_total := 0; d_buf16 := buf16_clear |} =
  in_row fp text [].
Proof.
  intros H. unfold tmpbuf_print, in_row. cbn [d_fp d_tmpbuf d_total d_buf16].
  change (Z.to_nat 0) with 0%nat.
  assert (Hs : substring 0 0 old = EmptyString) by (destruct old; reflexivity).
  rewrite Hs. cbn [append].
  rewrite snprintf_fits by (unfold MAX_TMPBUF; lia). reflexivity.
Qed.

Lemma display_char_nonzero (b : byte) : Ascii.eqb (display_char b) Ascii.zero = false.
Proof. destruct b; reflexivity. Qed.

Lemma cstring_buf16 (cur : list byte) :
  (List.length cur <= 16)%nat ->
  cstring (map display_char cur ++ repeat Ascii.zero (17 - List.length cur))%list =
  ascii_col cur.
Proof.
  intros H. unfold ascii_col.
  assert (Hz : exists k, (17 - List.length cur)%nat = S k)
    by (exists (16 - List.length cur)%nat; lia).
  destruct Hz as [k ->]. clear H.
  induction cur as [|b cur IH]; cbn [map app cstring string_of_list_ascii].
  - reflexivity.
  - rewrite display_char_nonzero. now rewrite IH.
Qed.

Lemma cstring_in_row (fp : list string) (head : string) (cur : list byte) :
  (List.length cur <= 16)%nat ->
  cstring (d_buf16 (in_row fp head cur)) = ascii_col cur.
Proof. intros H. apply cstring_buf16. exact H. Qed.

Lemma array_set_app (a r : list ascii) (z c : ascii) :
  array_set (a ++ z :: r)%list (List.length a) c = (a ++ c :: r)%list.
Proof. induction a as [|x a IH]; cbn; [reflexivity|now rewrite IH]. Qed.

Lemma buf16_store (cur : list byte) (b : byte) :
  (List.length cur < 16)%nat ->
  array_set (map display_char cur ++ repeat Ascii.zero (17 - List.length cur))%list
    (List.length cur) (display_char b) =
  (map display_char (cur ++ [b]) ++
   repeat Ascii.zero (17 - List.length (cur ++ [b])))%list.
Proof.
  intros H. rewrite length_app. cbn [List.length].
  replace (17 - List.length cur)%nat with (S (17 - (List.length cur + 1))) by lia.
  cbn [repeat]. rewrite <- (length_map display_char cur) at 2.
  rewrite array_set_app. rewrite map_app. cbn [map].
  rewrite <- app_assoc. reflexivity.
Qed.

Lemma byte_val_range (b : byte) : 0 <= byte_val b < 256.
Proof. unfold byte_val. pose proof (Byte.to_N_bounded b). lia. Qed.

Lemma hex_cell (b : byte) : fmt_2_2x (Z.land (byte_val b) 255) = hex2 b.
Proof.
  pose proof (byte_val_range b) as H.
  change 255 with (Z.ones 8). rewrite Z.land_ones by lia.
  change (2 ^ 8) with 256. rewrite Z.mod_small by lia.
  apply fmt_2_2x_digits. exact H.
Qed.

Lemma length_hex2 (b : byte) : String.length (hex2 b) = 2%nat.
Proof. apply length_fixed_digits. Qed.

Lemma length_hex8 (off : Z) : String.length (hex8 off) = 8%nat.
Proof. apply length_fixed_digits. Qed.

Lemma length_group_gap (j : nat) : (String.length (group_gap j) <= 1)%nat.
Proof. unfold group_gap. destruct ((j =? 0) || (j =? 8))%nat; cbn; lia. Qed.

Lemma length_row_cells (j : nat) (bs : list byte) :
  (String.length (row_cells j bs) <= 4 * List.length bs)%nat.
Proof.
  revert j. induction bs as [|b bs IH]; intros j; cbn [row_cells List.length].
  - cbn. lia.
  - rewrite !length_append, length_hex2. cbn [String.length].
    pose proof (length_group_gap j). specialize (IH (S j)). lia.
Qed.

Lemma length_row_head (off : Z) (bs : list byte) :
  (String.length (row_head off bs) <= 9 + 4 * List.length bs)%nat.
Proof.
  unfold row_head. rewrite !length_append, length_hex8. cbn [String.length].
  pose proof (length_row_cells 0 bs). lia.
Qed.

Lemma row_cells_snoc (j : nat) (bs : list byte) (b : byte) :
  row_cells j (bs ++ [b])%list =
  row_cells j bs ++ group_gap (j + List.length bs) ++ hex2 b ++ " ".
Proof.
  revert j. induction bs as [|x bs IH]; intros j; cbn [row_cells app List.length].
  - rewrite Nat.add_0_r. reflexivity.
  - rewrite IH. rewrite !append_assoc.
    replace (S j + List.length bs)%nat with (j + S (List.length bs))%nat by lia.
    reflexivity.
Qed.

Lemma row_head_snoc (off : Z) (bs : list byte) (b : byte) :
  row_head off (bs ++ [b])%list =
  row_head off bs ++ group_gap (List.length bs) ++ hex2 b ++ " ".
Proof.
  unfold row_head. rewrite row_cells_snoc. cbn [Nat.add].
  rewrite !append_assoc. reflexivity.
Qed.

Lemma length_ascii_col (cur : list byte) :
  String.length (ascii_col cur) = List.length cur.
Proof.
  unfold ascii_col. induction cur as [|b cur IH]; cbn; congruence.
Qed.

Lemma mod8_of_mod16 (idx : Z) : idx mod 8 = (idx mod 16) mod 8.
Proof. symmetry. apply Z.mod_mod_divide. exists 2. reflexivity. Qed.

Lemma store_display (b : byte) (a : list ascii) (i : nat) :
  array_set a i (if isprint b then ascii_of_byte b else ".") =
  array_set a i (display_char b).
Proof. reflexivity. Qed.

Lemma mod16_offset (off : Z) (j : nat) :
  off mod 16 = 0 -> (j < 16)%nat -> (off + Z.of_nat j) mod 16 = Z.of_nat j.
Proof.
  intros Ho Hj. rewrite Z.add_mod, Ho by lia. cbn [Z.add].
  rewrite Z.mod_mod by lia. apply Z.mod_small. lia.
Qed.

(** *** One round of the first loop *)

Lemma fdump_byte_first (b : byte) (fp : list string) :
  fdump_byte 0 b (in_row fp EmptyString []) =
  in_row fp (hex8 0 ++ " " ++ group_gap 0 ++ hex2 b ++ " ") [b].
Proof.
  unfold fdump_byte. cbn [Z.eqb negb andb].
  change (0 mod 16 =? 0) with true. change (0 mod 8 =? 0) with true. cbn iota.
  rewrite hex_cell.
  rewrite fmt_08x_digits by (unfold UINT_MAX; lia). fold (hex8 0).
  rewrite !tmpbuf_print_in_row.
  2, 3, 4: rewrite ?length_append, ?length_hex8, ?length_hex2; cbn; lia.
  cbn [append]. rewrite store_display. change (Z.to_nat (0 mod 16)) with 0%nat.
  unfold in_row. cbn [d_fp d_tmpbuf d_total d_buf16].
  rewrite !append_assoc. reflexivity.
Qed.

Lemma fdump_byte_mid (idx : Z) (b : byte) (fp : list string) (head : string)
    (cur : list byte) :
  idx mod 16 = Z.of_nat (List.length cur) ->
  (1 <= List.length cur <= 15)%nat ->
  (String.length head <= 900)%nat ->
  fdump_byte idx b (in_row fp head cur) =
  in_row fp (head ++ group_gap (List.length cur) ++ hex2 b ++ " ") (cur ++ [b])%list.
Proof.
  intros Hm Hj Hh. unfold fdump_byte.
  assert (H16 : (idx mod 16 =? 0) = false) by (apply Z.eqb_neq; lia).
  rewrite H16, andb_false_r.
  rewrite hex_cell.
  assert (Hgap : (if idx mod 8 =? 0 then tmpbuf_print " " (in_row fp head cur)
                  else in_row fp head cur) =
                 in_row fp (head ++ group_gap (List.length cur)) cur).
  { rewrite mod8_of_mod16, Hm. unfold group_gap.
    destruct (Nat.eq_dec (List.length cur) 8) as [E8|N8].
    - rewrite E8. cbn [Nat.eqb orb Z.of_nat]. 
      change (Z.of_nat 8 mod 8 =? 0) with true. cbn iota.
      apply tmpbuf_print_in_row. cbn. lia.
    - assert (Hz : (Z.of_nat (List.length cur) mod 8 =? 0) = false).
      { apply Z.eqb_neq. intros Hc.
        apply Z.mod_divide in Hc; [|lia]. destruct Hc as [q Hq]. lia. }
      rewrite Hz.
      assert (Hn : ((List.length cur =? 0) || (List.length cur =? 8))%nat = false).
      { apply orb_false_iff. split; apply Nat.eqb_neq; lia. }
      rewrite Hn, append_nil_r. reflexivity. }
  rewrite Hgap.
  rewrite tmpbuf_print_in_row.
  2: { rewrite !length_append, length_hex2. pose proof (length_group_gap (List.length cur)).
       cbn [String.length]. lia. }
  rewrite store_display, Hm, Nat2Z.id.
  unfold in_row. cbn [d_fp d_tmpbuf d_total d_buf16].
  rewrite buf16_store by lia. rewrite !append_assoc. reflexivity.
Qed.

Lemma fdump_byte_next_row (idx : Z) (b : byte) (fp : list string) (head : string)
    (cur : list byte) :
  0 < idx <= UINT_MAX -> idx mod 16 = 0 ->
  List.length cur = 16%nat ->
  (String.length head <= 900)%nat ->
  fdump_byte idx b (in_row fp head cur) =
  in_row (fp ++ [head ++ " " ++ ascii_col cur ++ nl])
         (hex8 idx ++ " " ++ group_gap 0 ++ hex2 b ++ " ") [b].
Proof.
  intros Hi Hm Hc Hh. unfold fdump_byte.
  assert (H0 : (idx =? 0) = false) by (apply Z.eqb_neq; lia).
  assert (H16 : (idx mod 16 =? 0) = true) by (apply Z.eqb_eq; exact Hm).
  assert (H8 : (idx mod 8 =? 0) = true).
  { apply Z.eqb_eq. rewrite mod8_of_mod16, Hm. reflexivity. }
  rewrite H0, H16, H8. cbn [negb andb].
  rewrite hex_cell. rewrite fmt_08x_digits by lia. fold (hex8 idx).
  replace (cstring (d_buf16 (in_row fp head cur))) with (ascii_col cur)
    by (symmetry; apply cstring_buf16; lia).
  rewrite tmpbuf_print_last_in_row
    by (cbn [append String.length]; rewrite length_ascii_col; lia).
  unfold fp_print_tmpbuf. cbn [d_fp d_tmpbuf d_total d_buf16].
  rewrite tmpbuf_print_at_start
    by (rewrite length_append, length_hex8; cbn; lia).
  rewrite !tmpbuf_print_in_row.
  2, 3: rewrite ?length_append, ?length_hex8, ?length_hex2; cbn; lia.
  rewrite store_display, Hm. change (Z.to_nat 0) with 0%nat.
  unfold in_row. cbn [d_fp d_tmpbuf d_total d_buf16].
  rewrite !append_assoc. reflexivity.
Qed.

(** *** Rows *)

Lemma rows_from_nil (fuel : nat) (off : Z) : rows_from fuel off [] = [].
Proof. destruct fuel; reflexivity. Qed.

Lemma rows_from_cons (f : nat) (off : Z) (x : byte) (l : list byte) :
  rows_from (S f) off (x :: l) =
  (off, firstn 16 (x :: l)) :: rows_from f (off + 16) (skipn 16 (x :: l)).
Proof. reflexivity. Qed.

Lemma rows_from_fuel (f1 f2 : nat) (off : Z) (l : list byte) :
  (List.length l <= f1)%nat -> (List.length l <= f2)%nat ->
  rows_from f1 off l = rows_from f2 off l.
Proof.
  revert f2 off l. induction f1 as [|f1 IH]; intros f2 off l H1 H2.
  - destruct l; [|cbn in H1; lia]. now rewrite !rows_from_nil.
  - destruct l as [|b l]; [now rewrite !rows_from_nil|].
    destruct f2 as [|f2]; [cbn in H2; lia|].
    rewrite !rows_from_cons. f_equal.
    assert (Hs : (List.length (skipn 16 (b :: l)) <= List.length l)%nat).
    { rewrite length_skipn. cbn [List.length]. lia. }
    cbn [List.length] in H1, H2. apply IH; lia.
Qed.

Lemma rows_from_single (fuel : nat) (off : Z) (cur : list byte) :
  (1 <= List.length cur <= 16)%nat -> (List.length cur <= fuel)%nat ->
  rows_from fuel off cur = [(off, cur)].
Proof.
  intros Hc Hf. destruct fuel as [|f]; [lia|].
  destruct cur as [|b cur]; [cbn in Hc; lia|].
  rewrite rows_from_cons. rewrite firstn_all2 by lia.
  rewrite skipn_all2 by lia. now rewrite rows_from_nil.
Qed.

Lemma rows_from_full_row (off : Z) (cur rest : list byte) (b : byte) :
  List.length cur = 16%nat ->
  rows_from (List.length (cur ++ b :: rest)) off (cur ++ b :: rest)%list =
  (off, cur) :: rows_from (List.length (b :: rest)) (off + 16) (b :: rest).
Proof.
  intros Hc.
  assert (Hf : firstn 16 (cur ++ b :: rest) = cur).
  { rewrite <- Hc, firstn_app, Nat.sub_diag, firstn_all. cbn [firstn].
    apply app_nil_r. }
  assert (Hs : skipn 16 (cur ++ b :: rest) = b :: rest).
  { rewrite <- Hc, skipn_app, Nat.sub_diag, skipn_all. reflexivity. }
  rewrite length_app, Hc.
  replace (16 + List.length (b :: rest))%nat with (S (15 + List.length (b :: rest)))
    by lia.
  destruct (cur ++ b :: rest)%list as [|x l] eqn:El.
  { destruct cur; discriminate. }
  rewrite rows_from_cons, Hf, Hs. f_equal. apply rows_from_fuel; lia.
Qed.

Lemma rows_17 (buf : list byte) :
  List.length buf = 17%nat ->
  rows buf = [(0, firstn 16 buf); (16, skipn 16 buf)].
Proof.
  intros H. unfold rows. rewrite H.
  do 17 (destruct buf as [|? buf]; [discriminate|]).
  destruct buf; [reflexivity|discriminate].
Qed.

(** *** The loops *)

(** The first loop, from a state that holds the row [cur] in progress. *)
Lemma fdump_bytes_rows (rest : list byte) :
  forall (fp : list string) (off : Z) (cur : list byte),
    0 <= off -> off mod 16 = 0 ->
    (1 <= List.length cur <= 16)%nat ->
    off + Z.of_nat (List.length cur) + Z.of_nat (List.length rest) <= UINT_MAX ->
    let R := rows_from (List.length (cur ++ rest)) off (cur ++ rest) in
    exists off' cur',
      last R (0, []) = (off', cur') /\
      0 <= off' /\ off' mod 16 = 0 /\ (1 <= List.length cur' <= 16)%nat /\
      off' + Z.of_nat (List.length cur') =
        off + Z.of_nat (List.length cur) + Z.of_nat (List.length rest) /\
      fdump_bytes rest (off + Z.of_nat (List.length cur))
        (in_row fp (row_head off cur) cur) =
      (off + Z.of_nat (List.length cur) + Z.of_nat (List.length rest),
       in_row (fp ++ map middle_row (removelast R)) (row_head off' cur') cur').
Proof.
  induction rest as [|b rest IH]; intros fp off cur Hoff Hmod Hcur Hmax R.
  - subst R. rewrite app_nil_r. rewrite rows_from_single by lia.
    exists off, cur. cbn [last removelast map fdump_bytes List.length Z.of_nat].
    rewrite app_nil_r, Z.add_0_r. repeat split; try lia.
  - cbn [fdump_bytes]. cbn [List.length] in Hmax.
    rewrite Z.mod_small by (unfold UINT_MAX in *; lia).
    pose proof (length_row_head off cur) as Hlen.
    destruct (Nat.eq_dec (List.length cur) 16) as [E16|N16].
    + (* the row is complete: [b] opens the next one *)
      rewrite fdump_byte_next_row; [| rewrite E16; lia | | exact E16 | lia].
      2: { rewrite E16. rewrite Z.add_mod, Hmod by lia. reflexivity. }
      rewrite E16.
      change (hex8 (off + Z.of_nat 16) ++ " " ++ group_gap 0 ++ hex2 b ++ " ")
        with (row_head (off + 16) [b]).
      change (row_head off cur ++ " " ++ ascii_col cur ++ nl)
        with (middle_row (off, cur)).
      replace (off + Z.of_nat 16 + 1) with (off + 16 + Z.of_nat (List.length [b]))
        by (cbn [List.length]; lia).
      specialize (IH (fp ++ [middle_row (off, cur)])%list (off + 16) [b]).
      destruct IH as (off' & cur' & Hlast & Ho' & Hm' & Hc' & Hsum & Hrun).
      { lia. }
      { rewrite Z.add_mod, Hmod by lia. reflexivity. }
      { cbn [List.length]. lia. }
      { cbn [List.length]. rewrite E16 in Hmax. lia. }
      subst R. rewrite rows_from_full_row by exact E16.
      cbn [app] in Hlast, Hrun |- *.
      set (R' := rows_from (List.length (b :: rest)) (off + 16) (b :: rest)) in *.
      assert (HR' : R' <> []) by (subst R'; cbn; discriminate).
      exists off', cur'. split; [|split; [|split; [|split; [|split]]]]; try assumption.
      * cbn [List.length] in Hsum |- *. rewrite ?E16. lia.
      * rewrite Hrun. f_equal.
        -- cbn [List.length]. rewrite ?E16. lia.
        -- f_equal. destruct R' as [|r0 R']; [contradiction|].
           cbn [removelast map]. rewrite <- app_assoc. reflexivity.
    + (* [b] joins the row in progress *)
      rewrite fdump_byte_mid; [| apply mod16_offset; [exact Hmod|lia] | lia | lia].
      rewrite <- row_head_snoc.
      replace (off + Z.of_nat (List.length cur) + 1)
        with (off + Z.of_nat (List.length (cur ++ [b])%list))
        by (rewrite length_app; cbn [List.length]; lia).
      specialize (IH fp off (cur ++ [b])%list Hoff Hmod).
      destruct IH as (off' & cur' & Hlast & Ho' & Hm' & Hc' & Hsum & Hrun).
      { rewrite length_app. cbn [List.length]. lia. }
      { rewrite length_app. cbn [List.length]. lia. }
      subst R. rewrite <- app_assoc in Hlast, Hrun. cbn [app] in Hlast, Hrun.
      exists off', cur'. split; [|split; [|split; [|split; [|split]]]]; try assumption.
      * rewrite Hsum. rewrite length_app. cbn [List.length]. lia.
      * rewrite Hrun. f_equal. rewrite length_app. cbn [List.length]. lia.
Qed.

(** The second loop appends three blanks per missing byte, and the group
    gap when it passes index 8. *)
Lemma fdump_pad_blank (m : nat) :
  forall (fuel : nat) (idx : Z) (fp : list string) (head : string)
         (cur : list byte),
    (m <= fuel)%nat -> (m < 16)%nat -> 0 <= idx ->
    (idx + Z.of_nat m) mod 16 = 0 -> idx + Z.of_nat m <= UINT_MAX + 1 ->
    (String.length head + 4 * m <= 900)%nat ->
    fdump_pad fuel idx (in_row fp head cur) =
    in_row fp
      (head ++ repeat_char " "
                 (3 * m + (if (0 <? m)%nat && (idx <=? 8) then 1 else 0)))
      cur.
Proof.
  induction m as [|m IH]; intros fuel idx fp head cur Hf Hm Hidx Hmod Hmax Hlen.
  - change (repeat_char " " (3 * 0 + (if (0 <? 0)%nat && (idx <=? 8) then 1 else 0)))
      with EmptyString.
    rewrite append_nil_r. rewrite Z.add_0_r in Hmod.
    destruct fuel; cbn [fdump_pad]; [reflexivity|].
    apply Z.eqb_eq in Hmod. now rewrite Hmod.
  - destruct fuel as [|fuel]; [lia|]. cbn [fdump_pad].
    assert (Hnz : (idx mod 16 =? 0) = false).
    { apply Z.eqb_neq. intros Hc.
      rewrite Z.add_mod, Hc in Hmod by lia. cbn [Z.add] in Hmod.
      rewrite Z.mod_mod in Hmod by lia.
      rewrite Z.mod_small in Hmod by lia. lia. }
    rewrite Hnz.
    assert (Hgap : (if idx =? 8 then tmpbuf_print " " (in_row fp head cur)
                    else in_row fp head cur) =
                   in_row fp (head ++ repeat_char " " (if idx =? 8 then 1 else 0)) cur).
    { destruct (idx =? 8).
      - apply tmpbuf_print_in_row. cbn. lia.
      - cbn [repeat_char]. now rewrite append_nil_r. }
    rewrite Hgap.
    rewrite tmpbuf_print_in_row
      by (rewrite length_append, length_repeat_char; cbn; destruct (idx =? 8); lia).
    change "   " with (repeat_char " " 3).
    rewrite append_assoc, repeat_char_app.
    assert (Hsm : (0 <? S m)%nat = true) by reflexivity. rewrite Hsm. cbn [andb].
    set (head' := head ++ repeat_char " " ((if idx =? 8 then 1 else 0) + 3)).
    assert (Hlen' : (String.length head' + 4 * m <= 900)%nat).
    { subst head'. rewrite length_append, length_repeat_char.
      destruct (idx =? 8); lia. }
    destruct (Z.eq_dec (idx + 1) (UINT_MAX + 1)) as [Ewrap|Nwrap].
    + (* the counter wraps to 0 on the last missing byte *)
      assert (m = 0%nat) by lia. subst m.
      rewrite Ewrap, Z.mod_same by (unfold UINT_MAX; lia).
      rewrite (IH fuel 0 fp head' cur ltac:(lia) ltac:(lia) ltac:(lia) eq_refl
                 ltac:(unfold UINT_MAX; cbn; lia) Hlen').
      change (repeat_char " " (3 * 0 + (if (0 <? 0)%nat && (0 <=? 8) then 1 else 0)))
        with EmptyString.
      rewrite append_nil_r. subst head'.
      assert (H8 : (idx =? 8) = false) by (apply Z.eqb_neq; unfold UINT_MAX in *; lia).
      assert (Hle : (idx <=? 8) = false) by (apply Z.leb_gt; unfold UINT_MAX in *; lia).
      rewrite H8, Hle. reflexivity.
    + rewrite Z.mod_small by (unfold UINT_MAX in *; lia).
      assert (Hmod' : (idx + 1 + Z.of_nat m) mod 16 = 0)
        by (rewrite <- Hmod; f_equal; lia).
      rewrite (IH fuel (idx + 1) fp head' cur ltac:(lia) ltac:(lia) ltac:(lia) Hmod'
                 ltac:(lia) Hlen').
      subst head'. rewrite append_assoc, repeat_char_app. f_equal. f_equal.
      destruct (Z.eq_dec idx 8) as [E8|N8].
      * subst idx. change (8 =? 8) with true. change (8 <=? 8) with true.
        change (8 + 1 <=? 8) with false. rewrite andb_false_r. cbv iota. f_equal. lia.
      * assert (H8 : (idx =? 8) = false) by (apply Z.eqb_neq; lia). rewrite H8.
        destruct (idx <=? 8) eqn:Hle.
        -- apply Z.leb_le in Hle.
           assert (Hm0 : (0 <? m)%nat = true).
           { apply Nat.ltb_lt.
             assert (Hd : (16 | idx + Z.of_nat (S m))) by (apply Z.mod_divide; lia).
             destruct Hd as [q Hq]. lia. }
           assert (Hle1 : (idx + 1 <=? 8) = true) by (apply Z.leb_le; lia).
           rewrite Hm0, Hle1. cbn [andb]. cbv iota. f_equal. lia.
        -- apply Z.leb_gt in Hle.
           assert (Hle1 : (idx + 1 <=? 8) = false) by (apply Z.leb_gt; lia).
           rewrite Hle1, andb_false_r. cbv iota. f_equal. lia.
Qed.

(** The output for a buffer that is not empty. *)
Lemma fdump_exact (label : string) (b : byte) (rest : list byte) :
  Z.of_nat (List.length (b :: rest)) <= UINT_MAX ->
  let R := rows (b :: rest) in
  let gap := if (List.length (b :: rest) <=? 8)%nat then 1%nat else 0%nat in
  fdump label (b :: rest) =
  ((label ++ nl)%string :: map middle_row (removelast R) ++
   [final_row (blank_columns (List.length (snd (last R (0, [])))) gap)
      (last R (0, []))])%list.
Proof.
  intros Hlen R gap. unfold fdump. cbn [fdump_bytes].
  change {| d_fp := [label ++ nl]; d_tmpbuf := EmptyString; d_total := 0;
            d_buf16 := buf16_clear |}
    with (in_row [label ++ nl] EmptyString []).
  rewrite fdump_byte_first.
  change (hex8 0 ++ " " ++ group_gap 0 ++ hex2 b ++ " ") with (row_head 0 [b]).
  change ((0 + 1) mod (UINT_MAX + 1)) with (0 + Z.of_nat (List.length [b])).
  cbn [List.length] in Hlen.
  destruct (fdump_bytes_rows rest [label ++ nl] 0 [b])
    as (off' & cur' & Hlast & Ho' & Hm' & Hc' & Hsum & Hrun);
    [lia|reflexivity|cbn [List.length]; lia|cbn [List.length]; lia|].
  cbn [app] in Hlast, Hrun. fold (rows (b :: rest)) in Hlast, Hrun. fold R in Hlast, Hrun.
  rewrite Hrun, Hlast. cbn [fst snd List.length] in *.
  set (k := List.length cur') in *.
  assert (Hdiv : (16 | off')) by (apply Z.mod_divide; lia).
  destruct Hdiv as [q Hq].
  pose proof (length_row_head off' cur') as Hhead. fold k in Hhead.
  rewrite (fdump_pad_blank (16 - k) 16 _ _ (row_head off' cur') cur');
    [|lia|lia|lia| |unfold UINT_MAX in *; lia|lia].
  2: { replace (0 + Z.of_nat 1 + Z.of_nat (List.length rest) + Z.of_nat (16 - k))
         with (off' + 16) by lia.
       rewrite Z.add_mod, Hm' by lia. reflexivity. }
  assert (Hgap : (if (0 <? 16 - k)%nat &&
                     (0 + Z.of_nat 1 + Z.of_nat (List.length rest) <=? 8)
                  then 1%nat else 0%nat) = gap).
  { subst gap. destruct (S (List.length rest) <=? 8)%nat eqn:Hle.
    - apply Nat.leb_le in Hle.
      assert (H1 : (0 <? 16 - k)%nat = true) by (apply Nat.ltb_lt; lia).
      assert (H2 : (0 + Z.of_nat 1 + Z.of_nat (List.length rest) <=? 8) = true)
        by (apply Z.leb_le; lia).
      now rewrite H1, H2.
    - apply Nat.leb_gt in Hle.
      assert (H2 : (0 + Z.of_nat 1 + Z.of_nat (List.length rest) <=? 8) = false)
        by (apply Z.leb_gt; lia).
      now rewrite H2, andb_false_r. }
  rewrite Hgap. fold (blank_columns k gap).
  rewrite cstring_in_row by lia.
  rewrite tmpbuf_print_last_in_row.
  2: { rewrite length_append. unfold blank_columns. rewrite length_repeat_char.
       cbn [append String.length]. rewrite length_ascii_col. fold k.
       subst gap. destruct (S (List.length rest) <=? 8)%nat; lia. }
  unfold fp_print_tmpbuf. cbn [d_fp d_tmpbuf]. unfold final_row. cbn [fst snd app].
  rewrite !append_assoc. reflexivity.
Qed.

Lemma fdump_empty (label : string) :
  fdump label [] = [label ++ nl; "  " ++ nl].
Proof. reflexivity. Qed.

(** An empty buffer yields a second line of two blanks, and a row of the
    dump carries two blanks after the offset: neither is what the
    specification's wording gives. *)
Lemma empty_dump_prints_blank_row :
  spdk_log_dump "buf" [] = ["buf" ++ nl; "  " ++ nl] /\
  spdk_log_dump "buf" [] <> spec_dump "buf" [] /\
  spdk_log_dump "buf" ["A"%byte] <> spec_dump "buf" ["A"%byte].
Proof.
  split; [reflexivity|]. split; intros H; vm_compute in H; discriminate H.
Qed.

(** C9, amended.  For a buffer of at most [UINT_MAX] bytes the dump is the
    label on its own line, then one line per row of sixteen bytes: the
    offset in eight hex digits, one blank, then for each byte two hex
    digits and a blank, with one more blank in front of the first and of
    the ninth byte; a row that is followed by another continues with one
    blank and the bytes as printable ASCII (['.'] for the others); the last
    row continues with three blanks for every byte it lacks (and at most
    one blank more), two blanks and the ASCII text.  An empty buffer gives
    the label line and one line of two blanks.  A buffer of 17 bytes gives
    the label and exactly two rows, the second padded for its 15 missing
    bytes. *)
Theorem fdump_layout (label : string) (buf : list byte) :
  Z.of_nat (List.length buf) <= UINT_MAX ->
  (buf = [] -> spdk_log_dump label buf = [label ++ nl; "  " ++ nl]) /\
  (buf <> [] ->
   exists gap : nat, (gap <= 1)%nat /\
     spdk_log_dump label buf =
     ((label ++ nl)%string :: map middle_row (removelast (rows buf)) ++
      [final_row
         (blank_columns (List.length (snd (last (rows buf) (0, [])))) gap)
         (last (rows buf) (0, []))])%list) /\
  (List.length buf = 17%nat ->
   exists gap : nat, (gap <= 1)%nat /\
     spdk_log_dump label buf =
     [label ++ nl; middle_row (0, firstn 16 buf);
      final_row (repeat_char " " (3 * 15 + gap)) (16, skipn 16 buf)]).
Proof.
  intros Hlen. unfold spdk_log_dump. split; [|split].
  - intros ->. apply fdump_empty.
  - intros Hne. destruct buf as [|b rest]; [contradiction|].
    exists (if (List.length (b :: rest) <=? 8)%nat then 1%nat else 0%nat).
    split; [destruct (List.length (b :: rest) <=? 8)%nat; lia|].
    apply fdump_exact. exact Hlen.
  - intros H17. destruct buf as [|b rest]; [discriminate|].
    exists 0%nat. split; [lia|].
    rewrite fdump_exact by exact Hlen. rewrite rows_17 by exact H17.
    rewrite H17. cbn [removelast last map app snd Nat.leb].
    unfold blank_columns.
    assert (Hs : List.length (skipn 16 (b :: rest)) = 1%nat)
      by (rewrite length_skipn, H17; reflexivity).
    rewrite Hs. reflexivity.
Qed.

Lemma fdump_layout_witness :
  spdk_log_dump "buf" [] = ["buf" ++ nl; "  " ++ nl] /\
  exists gap : nat, (gap <= 1)%nat /\
    spdk_log_dump "buf" bytes17 =
    ["buf" ++ nl; middle_row (0, firstn 16 bytes17);
     final_row (repeat_char " " (3 * 15 + gap)) (16, skipn 16 bytes17)].
Proof.
  destruct (fdump_layout "buf" [] ltac:(by_compute)) as (H0 & _).
  destruct (fdump_layout "buf" bytes17 ltac:(by_compute)) as (_ & _ & H17).
  split; [exact (H0 eq_refl)|exact (H17 eq_refl)].
Defined.

(** * Further properties *)

(** ** The clock and the severity map *)

Lemma usec_of_valid_timespec (ts : timespec) :
  valid_timespec ts ->
  usec_of_timespec ts = tv_sec ts * 1000000 + tv_nsec ts / 1000 /\
  0 <= usec_of_timespec ts < 2 ^ 62.
Proof.
  intros [Hs Hn]. unfold usec_of_timespec.
  change (2 ^ 40) with 1099511627776 in Hs.
  rewrite Z.quot_div_nonneg by lia.
  assert (Hq : 0 <= tv_nsec ts / 1000 < 1000000).
  { split; [apply Z.div_pos; lia|apply Z.div_lt_upper_bound; lia]. }
  rewrite (llong_small (tv_sec ts * 1000000))
    by (change (2 ^ 63) with 9223372036854775808; lia).
  rewrite llong_small by (change (2 ^ 63) with 9223372036854775808; lia).
  change (2 ^ 62) with 4611686018427387904. lia.
Qed.

(** X1.  [get_current_system_time] returns the clock reading in whole
    microseconds, exactly (no wrap-around of the [long long] arithmetic), so
    that two calls in a row on a clock that does not run backwards give
    values in order; each call reads the monotonic clock once and leaves the
    limiter state alone. *)
Theorem system_time_exact_and_monotone (E : env) (w : world) :
  let t1 := clock_monotonic E (mono_reads w) in
  let t2 := clock_monotonic E (S (mono_reads w)) in
  valid_timespec t1 -> valid_timespec t2 -> timespec_le t1 t2 ->
  let r1 := get_current_system_time E w in
  let r2 := get_current_system_time E (snd r1) in
  fst r1 = tv_sec t1 * 1000000 + tv_nsec t1 / 1000 /\
  fst r1 <= fst r2 /\
  mono_reads (snd r2) = S (S (mono_reads w)) /\
  g_rs (snd r2) = g_rs w.
Proof.
  intros t1 t2 V1 V2 Hle r1 r2.
  destruct (usec_of_valid_timespec t1 V1) as [E1 _].
  destruct (usec_of_valid_timespec t2 V2) as [E2 _].
  subst r1 r2. unfold get_current_system_time, bind, ret, clock_gettime_monotonic.
  cbn [fst snd mono_reads with_reads g_rs].
  fold t1 t2. rewrite E1, E2. repeat split.
  destruct V1 as [_ N1], V2 as [_ N2].
  assert (Q1 : 0 <= tv_nsec t1 / 1000 < 1000000).
  { split; [apply Z.div_pos; lia|apply Z.div_lt_upper_bound; lia]. }
  assert (Q2 : 0 <= tv_nsec t2 / 1000 < 1000000).
  { split; [apply Z.div_pos; lia|apply Z.div_lt_upper_bound; lia]. }
  destruct Hle as [Hlt|[Heq Hn]].
  - lia.
  - rewrite Heq. apply Z.add_le_mono_l. apply Z.div_le_mono; lia.
Qed.

Lemma system_time_exact_and_monotone_witness :
  fst (get_current_system_time E_demo w_fresh) = 100000000 /\
  mono_reads (snd (get_current_system_time E_demo
                     (snd (get_current_system_time E_demo w_fresh)))) = 2%nat.
Proof.
  destruct (system_time_exact_and_monotone E_demo w_fresh
              ltac:(by_compute) ltac:(by_compute)
              ltac:(right; split; [reflexivity|apply Z.le_refl]))
    as (H1 & _ & H3 & _).
  split; [exact H1|exact H3].
Defined.

(** X2.  [spdk_log_to_syslog_level] keeps the order of the levels: a more
    verbose level never maps to a smaller syslog severity; no level maps
    beyond [LOG_INFO], and the result is negative for the disabled level
    only. *)
Theorem syslog_level_monotone (l1 l2 : spdk_log_level) :
  level_ord l1 <= level_ord l2 ->
  spdk_log_to_syslog_level l1 <= spdk_log_to_syslog_level l2 /\
  spdk_log_to_syslog_level l2 <= LOG_INFO /\
  (spdk_log_to_syslog_level l2 < 0 <-> l2 = SPDK_LOG_DISABLED).
Proof.
  intros H. split; [|split; [|split]].
  - destruct l1, l2; cbn in *; unfold LOG_INFO, LOG_NOTICE, LOG_WARNING, LOG_ERR; lia.
  - destruct l2; cbn; unfold LOG_INFO, LOG_NOTICE, LOG_WARNING, LOG_ERR; lia.
  - destruct l2; cbn; unfold LOG_INFO, LOG_NOTICE, LOG_WARNING, LOG_ERR;
      intros Hc; try reflexivity; lia.
  - intros ->. cbn. lia.
Qed.

Lemma syslog_level_monotone_witness :
  spdk_log_to_syslog_level SPDK_LOG_ERROR <=
  spdk_log_to_syslog_level SPDK_LOG_NOTICE.
Proof.
  destruct (syslog_level_monotone SPDK_LOG_ERROR SPDK_LOG_NOTICE
              ltac:(by_compute)) as (H & _).
  exact H.
Defined.

(** ** The rate limiter beyond one window *)

Lemma with_reads_same (w : world) :
  with_reads (mono_reads w) (real_reads w) (lock_tries w) w = w.
Proof. destruct w; reflexivity. Qed.

Lemma gate_contended_world (E : env) (w : world) :
  interval (g_rs w) <> 0 ->
  spin_trylock E (lock_tries w) <> 0 ->
  log_print_ratelimit E w =
  (true, with_reads (mono_reads w) (real_reads w) (S (lock_tries w)) w).
Proof.
  intros Hi Hl. run_gate.
  apply Z.eqb_neq in Hi, Hl. rewrite Hi, Hl. reflexivity.
Qed.

(** X3.  While the limiter's lock is held elsewhere every call is allowed,
    however many there are and whatever the burst is, and none of them is
    counted: the limiter state, the clocks and the output stay as they
    were. *)
Theorem contended_calls_all_pass (E : env) (w : world) (n : nat) :
  interval (g_rs w) <> 0 ->
  (forall k, (lock_tries w <= k < lock_tries w + n)%nat -> spin_trylock E k <> 0) ->
  gate_calls E n w =
  (repeat true n,
   with_reads (mono_reads w) (real_reads w) (lock_tries w + n) w).
Proof.
  intros Hi. revert w Hi. induction n as [|n IH]; intros w Hi Hl.
  - cbn [gate_calls repeat]. unfold ret. rewrite Nat.add_0_r, with_reads_same.
    reflexivity.
  - rewrite gate_calls_S.
    rewrite (gate_contended_world E w Hi (Hl (lock_tries w) ltac:(lia))). cbn [fst snd].
    rewrite IH.
    + cbn [fst snd repeat].
      replace (lock_tries w + S n)%nat with (S (lock_tries w) + n)%nat by lia.
      destruct w; reflexivity.
    + exact Hi.
    + intros k Hk. apply Hl. cbn in Hk. lia.
Qed.

Lemma contended_calls_all_pass_witness :
  fst (gate_calls E_busy 3 w_fresh) = [true; true; true] /\
  g_rs (snd (gate_calls E_busy 3 w_fresh)) = g_rs w_fresh.
Proof.
  rewrite (contended_calls_all_pass E_busy w_fresh 3
             ltac:(by_compute) ltac:(intros k Hk; vm_compute; discriminate)).
  split; reflexivity.
Defined.

Lemma gate_counters (E : env) (w : world) :
  interval (g_rs w) <> 0 ->
  spin_trylock E (lock_tries w) = 0 ->
  let w' := snd (log_print_ratelimit E w) in
  lock_tries w' = S (lock_tries w) /\
  mono_reads w' =
    (if begin (g_rs w) =? 0 then S (S (mono_reads w)) else S (mono_reads w)).
Proof.
  intros Hi Hl. run_gate.
  apply Z.eqb_neq in Hi. rewrite Hi, Hl. cbn.
  destruct (begin (g_rs w) =? 0); cbn.
  all: match goal with |- context [if window_elapsed ?a ?b then _ else _] =>
         destruct (window_elapsed a b) end; cbn.
  all: try (destruct (missed (g_rs w) =? 0); cbn).
  all: rewrite ?get_timestamp_prefix_eq; unfold timestamp_world; cbn.
  all: try (destruct (g_log_timestamps w); cbn).
  all: match goal with |- context [if ?c then _ else _] => destruct c end; cbn.
  all: split; reflexivity.
Qed.

(** One uncontended call, whatever the window does. *)
Lemma gate_uncontended (E : env) (w : world) :
  interval (g_rs w) <> 0 ->
  spin_trylock E (lock_tries w) = 0 ->
  let r := log_print_ratelimit E w in
  interval (g_rs (snd r)) = interval (g_rs w) /\
  burst (g_rs (snd r)) = burst (g_rs w) /\
  ((fst r = gate_decision (g_rs w) /\
    printed (g_rs (snd r)) =
      (if gate_decision (g_rs w) then int_c (printed (g_rs w) + 1)
       else printed (g_rs w))) \/
   (fst r = (negb (burst (g_rs w) =? 0) && (burst (g_rs w) >? 0)) /\
    printed (g_rs (snd r)) = (if fst r then 1 else 0))).
Proof.
  intros Hi Hl r. subst r.
  destruct (window_elapsed (set_begin (gate_window_start E w) (g_rs w))
              (gate_cur_time E w)) eqn:Hw.
  - destruct (gate_new_window E w Hi Hl Hw) as (H1 & H2 & _).
    split; [rewrite H2; reflexivity|]. split; [rewrite H2; reflexivity|].
    right. split; [exact H1|]. rewrite H2, H1. reflexivity.
  - destruct (gate_same_window E w Hi Hl Hw) as (H1 & H2 & _).
    split; [rewrite H2; destruct (gate_decision (g_rs w)); reflexivity|].
    split; [rewrite H2; destruct (gate_decision (g_rs w)); reflexivity|].
    left. split; [exact H1|].
    rewrite H2. destruct (gate_decision (g_rs w)); reflexivity.
Qed.

(** X4.  With a burst of zero or below, and an interval that is not zero,
    every call that gets the lock is denied, in every window. *)
Theorem nonpositive_burst_denies_all (E : env) (w : world) (n : nat) :
  interval (g_rs w) <> 0 ->
  burst (g_rs w) <= 0 ->
  0 <= printed (g_rs w) ->
  (forall k, (lock_tries w <= k < lock_tries w + n)%nat -> spin_trylock E k = 0) ->
  fst (gate_calls E n w) = repeat false n.
Proof.
  revert w. induction n as [|n IH]; intros w Hi Hb Hp Hl.
  - reflexivity.
  - rewrite gate_calls_S. cbn [fst repeat].
    pose proof (gate_uncontended E w Hi (Hl (lock_tries w) ltac:(lia))) as (Gi & Gb & G).
    pose proof (gate_counters E w Hi (Hl (lock_tries w) ltac:(lia))) as (Gl & _).
    assert (Hd : gate_decision (g_rs w) = false).
    { unfold gate_decision. apply andb_false_iff. right.
      apply not_true_is_false. intros Hc. apply Z.gtb_lt in Hc. lia. }
    assert (Hn : negb (burst (g_rs w) =? 0) && (burst (g_rs w) >? 0) = false).
    { apply andb_false_iff. right.
      apply not_true_is_false. intros Hc. apply Z.gtb_lt in Hc. lia. }
    assert (Hf : fst (log_print_ratelimit E w) = false /\
                 0 <= printed (g_rs (snd (log_print_ratelimit E w)))).
    { destruct G as [[G1 G2]|[G1 G2]].
      - rewrite G1, G2, Hd. split; [reflexivity|exact Hp].
      - rewrite G2, G1, Hn. split; [reflexivity|lia]. }
    destruct Hf as [Hf Hp']. rewrite Hf. f_equal.
    apply IH; try assumption.
    + rewrite Gi. exact Hi.
    + rewrite Gb. exact Hb.
    + intros k Hk. apply Hl. rewrite Gl in Hk. lia.
Qed.

Lemma nonpositive_burst_denies_all_witness :
  fst (gate_calls E_demo 3 w_zero_burst) = [false; false; false].
Proof.
  exact (nonpositive_burst_denies_all E_demo w_zero_burst 3
           ltac:(by_compute) ltac:(by_compute) ltac:(by_compute)
           ltac:(by_compute)).
Defined.

(** With a negative interval the window has always elapsed. *)
Lemma negative_interval_calls (E : env) (lo hi : nat) (n : nat) :
  (forall k, (lo <= k < hi)%nat -> 0 <= usec_of_timespec (clock_monotonic E k)) ->
  (forall k k', (lo <= k <= k')%nat -> (k' < hi)%nat ->
     usec_of_timespec (clock_monotonic E k) <= usec_of_timespec (clock_monotonic E k')) ->
  forall w,
    (lo <= mono_reads w)%nat -> (mono_reads w + 2 * n <= hi)%nat ->
    -2147 <= interval (g_rs w) < 0 ->
    0 < burst (g_rs w) ->
    0 <= begin (g_rs w) ->
    (forall k, (mono_reads w <= k < hi)%nat ->
       begin (g_rs w) <= usec_of_timespec (clock_monotonic E k)) ->
    (forall k, (lock_tries w <= k < lock_tries w + n)%nat -> spin_trylock E k = 0) ->
    fst (gate_calls E n w) = repeat true n.
Proof.
  intros Hpos Hmono. induction n as [|n IH]; intros w Hlo Hhi Hi Hb Hbeg Hle Hl.
  - reflexivity.
  - rewrite gate_calls_S. cbn [fst repeat].
    assert (Hi0 : interval (g_rs w) <> 0) by lia.
    pose proof (gate_counters E w Hi0 (Hl (lock_tries w) ltac:(lia))) as (Gl & Gm).
    assert (Hstart : 0 <= gate_window_start E w <= gate_cur_time E w).
    { unfold gate_window_start, gate_cur_time.
      destruct (begin (g_rs w) =? 0).
      - split; [apply Hpos; lia|apply Hmono; lia].
      - split; [exact Hbeg|apply Hle; lia]. }
    assert (Hw : window_elapsed (set_begin (gate_window_start E w) (g_rs w))
                   (gate_cur_time E w) = true).
    { unfold window_elapsed. cbn. apply Z.ltb_lt.
      unfold window_usec.
      rewrite int_c_small by (unfold INT_MIN, INT_MAX; lia).
      pose proof (usec_range (clock_monotonic E
        (if begin (g_rs w) =? 0 then S (mono_reads w) else mono_reads w))) as Hc.
      fold (gate_cur_time E w) in Hc.
      change (2 ^ 63) with 9223372036854775808 in Hc.
      rewrite llong_small by (change (2 ^ 63) with 9223372036854775808; lia).
      lia. }
    destruct (gate_new_window E w Hi0 (Hl (lock_tries w) ltac:(lia)) Hw)
      as (H1 & H2 & _).
    assert (Hok : negb (burst (g_rs w) =? 0) && (burst (g_rs w) >? 0) = true).
    { apply andb_true_iff. split.
      - apply negb_true_iff, Z.eqb_neq. lia.
      - apply Z.gtb_lt. lia. }
    rewrite Hok in H1, H2. rewrite H1. f_equal.
    assert (Hcur : exists i, (mono_reads w <= i < mono_reads (snd (log_print_ratelimit E w)))%nat /\
                     gate_cur_time E w = usec_of_timespec (clock_monotonic E i)).
    { unfold gate_cur_time. rewrite Gm.
      destruct (begin (g_rs w) =? 0); eexists; (split; [|reflexivity]); lia. }
    destruct Hcur as (i & Hi' & Hci).
    assert (Hm' : (mono_reads (snd (log_print_ratelimit E w)) <= mono_reads w + 2)%nat)
      by (rewrite Gm; destruct (begin (g_rs w) =? 0); lia).
    apply IH.
    + lia.
    + lia.
    + rewrite H2. cbn. exact Hi.
    + rewrite H2. cbn. exact Hb.
    + rewrite H2. cbn. lia.
    + intros k Hk. rewrite H2. cbn. rewrite Hci. apply Hmono; lia.
    + intros k Hk. apply Hl. rewrite Gl in Hk. lia.
Qed.

(** X5.  A negative interval switches the limit off rather than the output:
    on a clock that does not run backwards every call finds its window
    elapsed, starts a new one and is allowed, as long as the burst is
    positive. *)
Theorem negative_interval_never_limits (E : env) (w : world) (n : nat) :
  -2147 <= interval (g_rs w) < 0 ->
  0 < burst (g_rs w) ->
  begin (g_rs w) = 0 ->
  (forall k, (lock_tries w <= k < lock_tries w + n)%nat -> spin_trylock E k = 0) ->
  (forall k, (mono_reads w <= k < mono_reads w + 2 * n)%nat ->
     0 <= usec_of_timespec (clock_monotonic E k)) ->
  (forall k k', (mono_reads w <= k <= k')%nat -> (k' < mono_reads w + 2 * n)%nat ->
     usec_of_timespec (clock_monotonic E k) <= usec_of_timespec (clock_monotonic E k')) ->
  fst (gate_calls E n w) = repeat true n.
Proof.
  intros Hi Hb Hbeg Hl Hpos Hmono.
  apply (negative_interval_calls E (mono_reads w) (mono_reads w + 2 * n) n Hpos Hmono);
    try assumption; try lia.
  intros k Hk. rewrite Hbeg. apply Hpos. lia.
Qed.

Lemma negative_interval_never_limits_witness :
  fst (gate_calls E_demo 3 w_negative) = [true; true; true].
Proof.
  exact (negative_interval_never_limits E_demo w_negative 3
           ltac:(by_compute) ltac:(by_compute) eq_refl
           ltac:(by_compute)
           ltac:(intros k Hk; vm_compute; discriminate)
           ltac:(intros k k' Hk Hk'; vm_compute; discriminate)).
Defined.

(** X6.  A call of the rate limiter never changes the interval, the burst,
    the override, the timestamp switch or the thresholds, writes nothing to
    syslog, and writes to the console nothing or the one summary line. *)
Theorem rate_limiter_frame (E : env) (w : world) :
  let w' := snd (log_print_ratelimit E w) in
  interval (g_rs w') = interval (g_rs w) /\
  burst (g_rs w') = burst (g_rs w) /\
  g_log w' = g_log w /\ g_log_timestamps w' = g_log_timestamps w /\
  g_spdk_log_level w' = g_spdk_log_level w /\
  g_spdk_log_print_level w' = g_spdk_log_print_level w /\
  syslog w' = syslog w /\ logfunc_calls w' = logfunc_calls w /\
  (stderr w' = stderr w \/
   stderr w' =
     (stderr w ++ [suppressed_line (timestamp_text E w) (g_rs w)])%list).
Proof.
  intros w'. subst w'.
  pose proof (gate_frame E w) as (F1 & F2 & F3 & F4 & F5 & F6).
  assert (Hrs : interval (g_rs (snd (log_print_ratelimit E w))) = interval (g_rs w) /\
                burst (g_rs (snd (log_print_ratelimit E w))) = burst (g_rs w)).
  { destruct (gate_rs_cases E w) as [(_ & H)|[(_ & H)|[(b & _ & H)|(b & _ & H)]]];
      rewrite H; try (split; reflexivity).
    destruct (gate_decision (g_rs w)); split; reflexivity. }
  destruct Hrs as [Hi Hb].
  repeat (split; [assumption|]).
  destruct (Z.eq_dec (interval (g_rs w)) 0) as [Hz|Hz].
  { left. rewrite (gate_interval_zero E w Hz). reflexivity. }
  destruct (Z.eq_dec (spin_trylock E (lock_tries w)) 0) as [Hl|Hl].
  2: { left. apply (gate_contended E w Hz Hl). }
  destruct (window_elapsed (set_begin (gate_window_start E w) (g_rs w))
              (gate_cur_time E w)) eqn:Hw.
  - destruct (gate_new_window E w Hz Hl Hw) as (_ & _ & H3). rewrite H3.
    destruct (missed (g_rs w) =? 0); [left; apply app_nil_r|right; reflexivity].
  - left. apply (gate_same_window E w Hz Hl Hw).
Qed.

Lemma gate_mono_reads_le (E : env) (w : world) :
  (mono_reads w <= mono_reads (snd (log_print_ratelimit E w)))%nat.
Proof.
  destruct (Z.eq_dec (interval (g_rs w)) 0) as [Hz|Hz].
  { rewrite (gate_interval_zero E w Hz). cbn. lia. }
  destruct (Z.eq_dec (spin_trylock E (lock_tries w)) 0) as [Hl|Hl].
  - destruct (gate_counters E w Hz Hl) as (_ & Hm). rewrite Hm.
    destruct (begin (g_rs w) =? 0); lia.
  - rewrite (gate_contended_world E w Hz Hl). cbn. lia.
Qed.

Lemma gate_calls_mono_reads_le (E : env) (n : nat) (w : world) :
  (mono_reads w <= mono_reads (snd (gate_calls E n w)))%nat.
Proof.
  revert w. induction n as [|n IH]; intros w.
  - cbn. lia.
  - rewrite gate_calls_S. cbn [snd].
    pose proof (gate_mono_reads_le E w).
    pose proof (IH (snd (log_print_ratelimit E w))). lia.
Qed.

Lemma gate_same_window_real_reads (E : env) (w : world) :
  interval (g_rs w) <> 0 ->
  spin_trylock E (lock_tries w) = 0 ->
  window_elapsed (set_begin (gate_window_start E w) (g_rs w)) (gate_cur_time E w) = false ->
  real_reads (snd (log_print_ratelimit E w)) = real_reads w.
Proof.
  intros Hi Hl Hw.
  unfold gate_window_start, gate_cur_time in *.
  run_gate.
  apply Z.eqb_neq in Hi. rewrite Hi, Hl. cbn.
  destruct (begin (g_rs w) =? 0) eqn:Hb; cbn; cbn in Hw;
    rewrite ?set_begin_same in Hw; rewrite Hw; cbn;
    destruct (negb (burst (g_rs w) =? 0) && (burst (g_rs w) >? printed (g_rs w)));
    reflexivity.
Qed.

(** [n] calls with the lock free whose clock readings all lie in the window
    that opened at [T]: the counts, and what stays as it was. *)
Lemma gate_calls_window_run (E : env) (T B I : Z) :
  0 < B <= INT_MAX -> I <> 0 -> 0 <= T < 2 ^ 62 ->
  forall (n : nat) (w : world),
    burst (g_rs w) = B -> interval (g_rs w) = I ->
    0 <= printed (g_rs w) <= B ->
    0 <= missed (g_rs w) -> missed (g_rs w) + Z.of_nat n <= INT_MAX ->
    (begin (g_rs w) = 0 \/ T <= begin (g_rs w) <= T + window_usec I) ->
    (forall k, (lock_tries w <= k < lock_tries w + n)%nat -> spin_trylock E k = 0) ->
    (forall k, (mono_reads w <= k < mono_reads (snd (gate_calls E n w)))%nat ->
               T <= usec_of_timespec (clock_monotonic E k) <= T + window_usec I) ->
    let wn := snd (gate_calls E n w) in
    burst (g_rs wn) = B /\ interval (g_rs wn) = I /\
    printed (g_rs wn) = Z.min (printed (g_rs w) + Z.of_nat n) B /\
    missed (g_rs wn) =
      missed (g_rs w) + Z.max 0 (printed (g_rs w) + Z.of_nat n - B) /\
    ((1 <= n)%nat -> T <= begin (g_rs wn) <= T + window_usec I) /\
    stderr wn = stderr w /\ real_reads wn = real_reads w /\
    g_log_timestamps wn = g_log_timestamps w /\
    lock_tries wn = (lock_tries w + n)%nat.
Proof.
  intros HB HI HT. induction n as [|n IH]; intros w Hb Hi Hp Hm Hmn Hbeg Hlock Hclk wn.
  - subst wn. cbn. repeat split; try assumption; try lia.
  - subst wn. rewrite gate_calls_S in Hclk |- *. cbn [snd] in Hclk |- *.
    set (w1 := snd (log_print_ratelimit E w)) in *.
    assert (Hi0 : interval (g_rs w) <> 0) by lia.
    pose proof (gate_counters E w Hi0 (Hlock (lock_tries w) ltac:(lia))) as (Gl & Gm).
    fold w1 in Gl, Gm.
    pose proof (gate_calls_mono_reads_le E n w1) as Hge.
    assert (Hstart : T <= gate_window_start E w <= T + window_usec I).
    { unfold gate_window_start. destruct (begin (g_rs w) =? 0) eqn:Hz.
      - apply Hclk. try rewrite Hz in Gm. lia.
      - apply Z.eqb_neq in Hz. destruct Hbeg; [contradiction|assumption]. }
    assert (Hcur : T <= gate_cur_time E w <= T + window_usec I).
    { unfold gate_cur_time. destruct (begin (g_rs w) =? 0); apply Hclk; lia. }
    assert (Hwin : window_elapsed (set_begin (gate_window_start E w) (g_rs w))
                     (gate_cur_time E w) = false).
    { unfold window_elapsed. cbn. rewrite Hi. apply Z.ltb_ge.
      pose proof (int_c_range (I * 1000000)) as Hr.
      unfold window_usec, INT_MIN, INT_MAX in *.
      change (2 ^ 62) with 4611686018427387904 in HT.
      rewrite llong_small; change (2 ^ 63) with 9223372036854775808; lia. }
    pose proof (gate_same_window E w Hi0 (Hlock (lock_tries w) ltac:(lia)) Hwin)
      as (_ & G2 & G3 & _ & _).
    pose proof (gate_same_window_real_reads E w Hi0
                  (Hlock (lock_tries w) ltac:(lia)) Hwin) as G6.
    pose proof (gate_frame E w) as (_ & G7 & _).
    fold w1 in G2, G3, G6, G7.
    rewrite gate_decision_ltb in G2 by lia.
    assert (Hlock1 : forall k, (lock_tries w1 <= k < lock_tries w1 + n)%nat ->
                               spin_trylock E k = 0)
      by (intros k Hk; apply Hlock; lia).
    assert (Hclk1 : forall k,
               (mono_reads w1 <= k < mono_reads (snd (gate_calls E n w1)))%nat ->
               T <= usec_of_timespec (clock_monotonic E k) <= T + window_usec I).
    { intros k Hk. apply Hclk. rewrite Gm in Hk.
      destruct (begin (g_rs w) =? 0); lia. }
    specialize (IH w1).
    destruct (printed (g_rs w) <? burst (g_rs w)) eqn:Hlt.
    + apply Z.ltb_lt in Hlt.
      rewrite int_c_small in G2 by (unfold INT_MIN, INT_MAX in *; lia).
      rewrite G2 in IH. cbn in IH.
      specialize (IH Hb Hi ltac:(lia) Hm ltac:(lia) ltac:(right; lia) Hlock1 Hclk1).
      destruct IH as (I1 & I2 & I3 & I4 & I5 & I6 & I7 & I8 & I9).
      repeat split; try assumption; try congruence; try lia.
      * destruct n; [|apply I5; lia]. cbn. rewrite G2. cbn. lia.
      * destruct n; [|apply I5; lia]. cbn. rewrite G2. cbn. lia.
    + apply Z.ltb_ge in Hlt.
      rewrite int_c_small in G2 by (unfold INT_MIN, INT_MAX in *; lia).
      rewrite G2 in IH. cbn in IH.
      specialize (IH Hb Hi ltac:(lia) ltac:(lia) ltac:(lia) ltac:(right; lia)
                    Hlock1 Hclk1).
      destruct IH as (I1 & I2 & I3 & I4 & I5 & I6 & I7 & I8 & I9).
      repeat split; try assumption; try congruence; try lia.
      * destruct n; [|apply I5; lia]. cbn. rewrite G2. cbn. lia.
      * destruct n; [|apply I5; lia]. cbn. rewrite G2. cbn. lia.
Qed.



(** The decisions of [n] calls with the lock free whose clock readings all
    lie in the window that opened at [T]. *)
Lemma gate_calls_window_decisions (E : env) (T B I : Z) :
  0 < B <= INT_MAX -> I <> 0 -> 0 <= T < 2 ^ 62 ->
  forall (n : nat) (w : world),
    burst (g_rs w) = B -> interval (g_rs w) = I ->
    0 <= printed (g_rs w) <= B ->
    0 <= missed (g_rs w) -> missed (g_rs w) + Z.of_nat n <= INT_MAX ->
    (begin (g_rs w) = 0 \/ T <= begin (g_rs w) <= T + window_usec I) ->
    (forall k, (lock_tries w <= k < lock_tries w + n)%nat -> spin_trylock E k = 0) ->
    (forall k, (mono_reads w <= k < mono_reads (snd (gate_calls E n w)))%nat ->
               T <= usec_of_timespec (clock_monotonic E k) <= T + window_usec I) ->
    fst (gate_calls E n w) =
      map (fun k => printed (g_rs w) + Z.of_nat k <? B) (seq 0 n).
Proof.
  intros HB HI HT. induction n as [|n IH]; intros w Hb Hi Hp Hm Hmn Hbeg Hlock Hclk.
  - reflexivity.
  - rewrite gate_calls_S in Hclk |- *. cbn [fst snd] in Hclk |- *.
    set (w1 := snd (log_print_ratelimit E w)) in *.
    assert (Hi0 : interval (g_rs w) <> 0) by lia.
    pose proof (gate_counters E w Hi0 (Hlock (lock_tries w) ltac:(lia))) as (Gl & Gm).
    fold w1 in Gl, Gm.
    pose proof (gate_calls_mono_reads_le E n w1) as Hge.
    assert (Hstart : T <= gate_window_start E w <= T + window_usec I).
    { unfold gate_window_start. destruct (begin (g_rs w) =? 0) eqn:Hz.
      - apply Hclk. try rewrite Hz in Gm. lia.
      - apply Z.eqb_neq in Hz. destruct Hbeg; [contradiction|assumption]. }
    assert (Hcur : T <= gate_cur_time E w <= T + window_usec I).
    { unfold gate_cur_time. destruct (begin (g_rs w) =? 0); apply Hclk; lia. }
    assert (Hwin : window_elapsed (set_begin (gate_window_start E w) (g_rs w))
                     (gate_cur_time E w) = false).
    { unfold window_elapsed. cbn. rewrite Hi. apply Z.ltb_ge.
      pose proof (int_c_range (I * 1000000)) as Hr.
      unfold window_usec, INT_MIN, INT_MAX in *.
      change (2 ^ 62) with 4611686018427387904 in HT.
      rewrite llong_small; change (2 ^ 63) with 9223372036854775808; lia. }
    pose proof (gate_same_window E w Hi0 (Hlock (lock_tries w) ltac:(lia)) Hwin)
      as (G1 & G2 & _).
    fold w1 in G2.
    rewrite gate_decision_ltb in G1, G2 by lia.
    assert (Hlock1 : forall k, (lock_tries w1 <= k < lock_tries w1 + n)%nat ->
                               spin_trylock E k = 0)
      by (intros k Hk; apply Hlock; lia).
    assert (Hclk1 : forall k,
               (mono_reads w1 <= k < mono_reads (snd (gate_calls E n w1)))%nat ->
               T <= usec_of_timespec (clock_monotonic E k) <= T + window_usec I).
    { intros k Hk. apply Hclk. rewrite Gm in Hk.
      destruct (begin (g_rs w) =? 0); lia. }
    specialize (IH w1). rewrite G1.
    destruct (printed (g_rs w) <? burst (g_rs w)) eqn:Hlt.
    + apply Z.ltb_lt in Hlt.
      rewrite int_c_small in G2 by (unfold INT_MIN, INT_MAX in *; lia).
      rewrite G2 in IH. cbn in IH.
      rewrite (IH Hb Hi ltac:(lia) Hm ltac:(lia) ltac:(right; lia) Hlock1 Hclk1).
      cbn [seq map]. f_equal.
      * rewrite Z.add_0_r. symmetry. apply Z.ltb_lt. lia.
      * rewrite <- seq_shift, map_map. apply map_ext. intros k. f_equal. lia.
    + apply Z.ltb_ge in Hlt.
      rewrite int_c_small in G2 by (unfold INT_MIN, INT_MAX in *; lia).
      rewrite G2 in IH. cbn in IH.
      rewrite (IH Hb Hi ltac:(lia) ltac:(lia) ltac:(lia) ltac:(right; lia)
                 Hlock1 Hclk1).
      cbn [seq map]. f_equal.
      * rewrite Z.add_0_r. symmetry. apply Z.ltb_ge. lia.
      * rewrite <- seq_shift, map_map. apply map_ext. intros k.
        transitivity false; [|symmetry]; apply Z.ltb_ge; lia.
Qed.

(** X18.  The burst within a window of [I] seconds, for [I] up to 2147.  A
    limiter with burst [B > 0] and interval [I] that has not started a
    window yet is called [n] times with the lock free, every clock reading
    these calls take lying within [I * 1000000] microseconds of the first
    reading [T].  Then the k-th call, counted from 0, is allowed exactly
    when [k < B]; [printed] ends at [min n B], one up for each allowed call;
    and each call after the first [B] adds one to [missed].  In particular,
    of [B + 1] calls the first [B] return true and the last returns false
    and adds one to [missed]. *)
Theorem burst_within_window_seconds (E : env) (w : world) (n : nat) :
  let B := burst (g_rs w) in
  let I := interval (g_rs w) in
  let T := usec_of_timespec (clock_monotonic E (mono_reads w)) in
  let r := gate_calls E n w in
  0 < B <= INT_MAX -> 0 < I <= 2147 ->
  printed (g_rs w) = 0 -> begin (g_rs w) = 0 ->
  0 <= missed (g_rs w) -> missed (g_rs w) + Z.of_nat n <= INT_MAX ->
  (forall k, (lock_tries w <= k < lock_tries w + n)%nat -> spin_trylock E k = 0) ->
  0 <= T < 2 ^ 62 ->
  (forall k, (mono_reads w <= k < mono_reads (snd r))%nat ->
             T <= usec_of_timespec (clock_monotonic E k) <= T + I * 1000000) ->
  fst r = map (fun k => Z.of_nat k <? B) (seq 0 n) /\
  printed (g_rs (snd r)) = Z.min (Z.of_nat n) B /\
  missed (g_rs (snd r)) = missed (g_rs w) + Z.max 0 (Z.of_nat n - B) /\
  (Z.of_nat n = B + 1 ->
   fst r = (repeat true (Z.to_nat B) ++ [false])%list /\
   printed (g_rs (snd r)) = B /\
   missed (g_rs (snd r)) = missed (g_rs w) + 1).
Proof.
  intros B I T r HB HI Hp Hbeg Hm Hmn Hlock HT Hclk.
  rewrite <- (window_usec_seconds I) in Hclk by lia.
  pose proof (gate_calls_window_decisions E T B I HB ltac:(lia) HT n w eq_refl eq_refl
                ltac:(lia) Hm Hmn (or_introl Hbeg) Hlock Hclk) as H1.
  pose proof (gate_calls_window_run E T B I HB ltac:(lia) HT n w eq_refl eq_refl
                ltac:(lia) Hm Hmn (or_introl Hbeg) Hlock Hclk)
    as (_ & _ & H2 & H3 & _).
  fold r in H1, H2, H3. rewrite Hp in H1, H2, H3. cbn [Z.add] in H1, H2, H3.
  split; [exact H1|]. split; [exact H2|]. split; [exact H3|].
  intros Hn. rewrite H1, H2, H3.
  destruct (Z_of_nat_complete B ltac:(lia)) as [b Hb].
  assert (En : n = S b) by lia.
  rewrite Hb, En, Nat2Z.id, map_ltb_seq_succ. repeat split; lia.
Qed.

Lemma burst_within_window_seconds_witness :
  let r := gate_calls E_tick 3 w_burst2 in
  fst r = [true; true; false] /\
  printed (g_rs (snd r)) = 2 /\ missed (g_rs (snd r)) = 1.
Proof.
  destruct (burst_within_window_seconds E_tick w_burst2 3
              ltac:(by_compute) ltac:(by_compute) eq_refl eq_refl
              ltac:(by_compute) ltac:(by_compute) ltac:(by_compute)
              ltac:(by_compute)
              ltac:(intros k Hk; vm_compute in Hk;
                    do 4 (destruct k as [|k]; [by_compute|]); lia))
    as (_ & _ & _ & H).
  exact (H eq_refl).
Defined.

(** ** Where a message goes *)

Lemma severity_of_enabled (level : spdk_log_level) :
  level <> SPDK_LOG_DISABLED -> (spdk_log_to_syslog_level level <? 0) = false.
Proof. destruct level; [congruence|reflexivity ..]. Qed.

Lemma timestamp_world_frame (w : world) :
  g_rs (timestamp_world w) = g_rs w /\
  stderr (timestamp_world w) = stderr w /\
  syslog (timestamp_world w) = syslog w /\
  g_log (timestamp_world w) = g_log w /\
  g_log_timestamps (timestamp_world w) = g_log_timestamps w /\
  g_spdk_log_level (timestamp_world w) = g_spdk_log_level w /\
  g_spdk_log_print_level (timestamp_world w) = g_spdk_log_print_level w /\
  logfunc_calls (timestamp_world w) = logfunc_calls w.
Proof.
  unfold timestamp_world. destruct w; cbn.
  match goal with |- context [if ?b then _ else _] => destruct b end;
    cbn; repeat split.
Qed.

(** The path of [spdk_vlog] behind the threshold test, in terms of the
    outcome of the rate limiter. *)
Lemma spdk_vlog_dispatch (E : env) (w : world) (level : spdk_log_level)
    (file : option string) (line : Z) (func : option string)
    (format : string) (ap : va_list) :
  g_log w = None ->
  level_filtered level (g_spdk_log_print_level w) (g_spdk_log_level w) = false ->
  level <> SPDK_LOG_DISABLED ->
  let r := log_print_ratelimit E w in
  let w1 := snd r in
  let text := message_text E level file line func format ap in
  let w' := snd (spdk_vlog E level file line func format ap w) in
  (fst r = false -> w' = w1) /\
  (fst r = true ->
   g_rs w' = g_rs w1 /\
   stderr w' =
     (stderr w1 ++
      (if level_ord level <=? level_ord (g_spdk_log_print_level w)
       then [(timestamp_text E w1 ++ text)%string] else []))%list /\
   syslog w' =
     (syslog w ++
      (if level_ord level <=? level_ord (g_spdk_log_level w)
       then [(spdk_log_to_syslog_level level, text)] else []))%list /\
   g_log w' = None /\
   g_log_timestamps w' = g_log_timestamps w /\
   g_spdk_log_level w' = g_spdk_log_level w /\
   g_spdk_log_print_level w' = g_spdk_log_print_level w /\
   logfunc_calls w' = logfunc_calls w).
Proof.
  intros Hg Hf Hd r w1 text w'.
  pose proof (gate_frame E w) as (F1 & F2 & F3 & F4 & F5 & F6).
  fold r in F1, F2, F3, F4, F5, F6. fold w1 in F1, F2, F3, F4, F5, F6.
  subst w'. unfold spdk_vlog. rewrite Hg, Hf, (severity_of_enabled level Hd).
  unfold bind. subst w1 text. unfold message_text.
  destruct (log_print_ratelimit E w) as [ok w1]. subst r. cbn [fst snd] in *.
  split; intros Hok; subst ok; cbn [negb]; [reflexivity|].
  rewrite F4.
  pose proof (timestamp_world_frame w1) as (T1 & T2 & T3 & T4 & T5 & T6 & T7 & T8).
  destruct (level_ord level <=? level_ord (g_spdk_log_print_level w)).
  - rewrite get_timestamp_prefix_eq.
    destruct file as [f|]; unfold fprintf_stderr; cbn [g_spdk_log_level with_stderr];
      rewrite T6, F3;
      destruct (level_ord level <=? level_ord (g_spdk_log_level w));
      cbn; rewrite ?app_nil_r; repeat split; congruence.
  - rewrite F3.
    destruct (level_ord level <=? level_ord (g_spdk_log_level w));
      destruct file as [f|]; cbn; rewrite ?app_nil_r; repeat split; congruence.
Qed.

Lemma level_eq_dec (a b : spdk_log_level) : {a = b} + {a <> b}.
Proof. decide equality. Qed.

Lemma gate_limits_kept (E : env) (w : world) :
  interval (g_rs (snd (log_print_ratelimit E w))) = interval (g_rs w) /\
  burst (g_rs (snd (log_print_ratelimit E w))) = burst (g_rs w).
Proof.
  destruct (gate_rs_cases E w) as [(_ & H)|[(_ & H)|[(b & _ & H)|(b & _ & H)]]];
    rewrite H; try (split; reflexivity).
  destruct (gate_decision (g_rs w)); split; reflexivity.
Qed.

Lemma gate_stderr_cases (E : env) (w : world) :
  stderr (snd (log_print_ratelimit E w)) = stderr w \/
  stderr (snd (log_print_ratelimit E w)) =
    (stderr w ++ [suppressed_line (timestamp_text E w) (g_rs w)])%list.
Proof.
  destruct (Z.eq_dec (interval (g_rs w)) 0) as [Hz|Hz].
  { left. rewrite (gate_interval_zero E w Hz). reflexivity. }
  destruct (Z.eq_dec (spin_trylock E (lock_tries w)) 0) as [Hl|Hl].
  2: { left. apply (gate_contended E w Hz Hl). }
  destruct (window_elapsed (set_begin (gate_window_start E w) (g_rs w))
              (gate_cur_time E w)) eqn:Hw.
  - destruct (gate_new_window E w Hz Hl Hw) as (_ & _ & H3). rewrite H3.
    destruct (missed (g_rs w) =? 0); [left; apply app_nil_r|right; reflexivity].
  - left. apply (gate_same_window E w Hz Hl Hw).
Qed.

Lemma gate_real_reads_disabled (E : env) (w : world) :
  g_log_timestamps w = false ->
  real_reads (snd (log_print_ratelimit E w)) = real_reads w.
Proof.
  intros Ht. run_gate.
  destruct (interval (g_rs w) =? 0); cbn; [reflexivity|].
  destruct (spin_trylock E (lock_tries w) =? 0); cbn; [|reflexivity].
  destruct (begin (g_rs w) =? 0); cbn.
  all: match goal with |- context [if window_elapsed ?a ?b then _ else _] =>
         destruct (window_elapsed a b) end; cbn.
  all: try (destruct (missed (g_rs w) =? 0); cbn).
  all: rewrite ?get_timestamp_prefix_eq; unfold timestamp_world; cbn.
  all: rewrite ?Ht; cbn.
  all: repeat match goal with |- context [if ?c then _ else _] => destruct c; cbn end.
  all: reflexivity.
Qed.

Lemma spdk_vlog_override (E : env) (w : world) (f : logfunc)
    (level : spdk_log_level) (file : option string) (line : Z)
    (func : option string) (format : string) (ap : va_list) :
  g_log w = Some f ->
  spdk_vlog E level file line func format ap w =
    (tt, with_calls (logfunc_calls w ++ [mk_call f level file line func format ap]) w).
Proof. intros Hg. unfold spdk_vlog, call_logfunc. rewrite Hg. reflexivity. Qed.

Lemma spdk_vlog_filtered (E : env) (w : world)
    (level : spdk_log_level) (file : option string) (line : Z)
    (func : option string) (format : string) (ap : va_list) :
  g_log w = None ->
  level_filtered level (g_spdk_log_print_level w) (g_spdk_log_level w) = true ->
  spdk_vlog E level file line func format ap w = (tt, w).
Proof. intros Hg Hf. unfold spdk_vlog. rewrite Hg, Hf. reflexivity. Qed.

Lemma spdk_vlog_disabled (E : env) (w : world)
    (file : option string) (line : Z) (func : option string)
    (format : string) (ap : va_list) :
  g_log w = None ->
  spdk_vlog E SPDK_LOG_DISABLED file line func format ap w = (tt, w).
Proof.
  intros Hg. unfold spdk_vlog. rewrite Hg.
  destruct (level_filtered _ _ _); reflexivity.
Qed.

(** X8.  A message that passes the threshold test and the rate limiter is
    written to each sink whose threshold admits it, once, and with the same
    text in both; the console entry alone carries the timestamp in front.
    At least one of the two sinks receives it. *)
Theorem allowed_message_reaches_eligible_sinks (E : env) (w : world)
    (level : spdk_log_level) (file : option string) (line : Z)
    (func : option string) (format : string) (ap : va_list) :
  g_log w = None ->
  level <> SPDK_LOG_DISABLED ->
  level_filtered level (g_spdk_log_print_level w) (g_spdk_log_level w) = false ->
  fst (log_print_ratelimit E w) = true ->
  let w1 := snd (log_print_ratelimit E w) in
  let text := message_text E level file line func format ap in
  let w' := snd (spdk_vlog E level file line func format ap w) in
  stderr w' =
    (stderr w1 ++
     (if level_ord level <=? level_ord (g_spdk_log_print_level w)
      then [(timestamp_text E w1 ++ text)%string] else []))%list /\
  syslog w' =
    (syslog w ++
     (if level_ord level <=? level_ord (g_spdk_log_level w)
      then [(spdk_log_to_syslog_level level, text)] else []))%list /\
  (level_ord level <=? level_ord (g_spdk_log_print_level w)) ||
  (level_ord level <=? level_ord (g_spdk_log_level w)) = true.
Proof.
  intros Hg Hd Hf Hok w1 text w'.
  destruct (spdk_vlog_dispatch E w level file line func format ap Hg Hf Hd)
    as [_ H].
  destruct (H Hok) as (_ & H1 & H2 & _).
  split; [exact H1|]. split; [exact H2|].
  unfold level_filtered in Hf. apply andb_false_iff in Hf.
  apply orb_true_iff.
  destruct Hf as [Hf|Hf]; [left|right]; apply Z.leb_le;
    destruct (Z.gtb_spec (level_ord level) (level_ord (g_spdk_log_print_level w)));
    destruct (Z.gtb_spec (level_ord level) (level_ord (g_spdk_log_level w)));
    try discriminate; lia.
Qed.

Lemma allowed_message_reaches_eligible_sinks_witness :
  let w' := snd (spdk_vlog E_demo SPDK_LOG_ERROR (Some "nvme.c") 7
                   (Some "probe") "no device" [] w_fresh) in
  stderr w' =
    ["[2023-11-14 22:13:20.123456] nvme.c:   7:probe: *ERROR*: no device"] /\
  syslog w' = [(LOG_ERR, "nvme.c:   7:probe: *ERROR*: no device")].
Proof.
  destruct (allowed_message_reaches_eligible_sinks E_demo w_fresh SPDK_LOG_ERROR
              (Some "nvme.c") 7 (Some "probe") "no device" []
              eq_refl ltac:(discriminate) eq_refl eq_refl) as (H1 & H2 & _).
  split; [exact H1|exact H2].
Defined.

(** X9.  A message the rate limiter denies reaches neither sink: syslog and
    the override trace are untouched, and the console gains at most the
    limiter's own summary line. *)
Theorem denied_message_reaches_no_sink (E : env) (w : world)
    (level : spdk_log_level) (file : option string) (line : Z)
    (func : option string) (format : string) (ap : va_list) :
  g_log w = None ->
  fst (log_print_ratelimit E w) = false ->
  let w' := snd (spdk_vlog E level file line func format ap w) in
  syslog w' = syslog w /\ logfunc_calls w' = logfunc_calls w /\
  (stderr w' = stderr w \/
   stderr w' =
     (stderr w ++ [suppressed_line (timestamp_text E w) (g_rs w)])%list).
Proof.
  intros Hg Hok w'. subst w'.
  destruct (level_filtered level (g_spdk_log_print_level w) (g_spdk_log_level w))
    eqn:Hf.
  { rewrite (spdk_vlog_filtered E w level file line func format ap Hg Hf).
    cbn. auto. }
  destruct (level_eq_dec level SPDK_LOG_DISABLED) as [Hd|Hd].
  { subst level. rewrite (spdk_vlog_disabled E w file line func format ap Hg).
    cbn. auto. }
  destruct (spdk_vlog_dispatch E w level file line func format ap Hg Hf Hd)
    as [H _].
  rewrite (H Hok).
  pose proof (gate_frame E w) as (_ & _ & _ & _ & F5 & F6).
  split; [exact F5|]. split; [exact F6|]. apply gate_stderr_cases.
Qed.

Lemma denied_message_reaches_no_sink_witness :
  let w' := snd (spdk_vlog E_demo SPDK_LOG_ERROR (Some "nvme.c") 7
                   (Some "probe") "no device" [] w_quiet) in
  syslog w' = [] /\ logfunc_calls w' = [].
Proof.
  destruct (denied_message_reaches_no_sink E_demo w_quiet SPDK_LOG_ERROR
              (Some "nvme.c") 7 (Some "probe") "no device" []
              eq_refl eq_refl) as (H1 & H2 & _).
  split; [exact H1|exact H2].
Defined.

(** X10.  Syslog is written only by a message that is not at the disabled
    level, that the log threshold (itself not disabled) admits and the rate
    limiter allows, with no override installed; it then gains exactly that
    one entry. *)
Theorem syslog_written_only_when_eligible (E : env) (w : world)
    (level : spdk_log_level) (file : option string) (line : Z)
    (func : option string) (format : string) (ap : va_list) :
  let w' := snd (spdk_vlog E level file line func format ap w) in
  syslog w' <> syslog w ->
  g_log w = None /\ level <> SPDK_LOG_DISABLED /\
  level_ord level <= level_ord (g_spdk_log_level w) /\
  g_spdk_log_level w <> SPDK_LOG_DISABLED /\
  fst (log_print_ratelimit E w) = true /\
  syslog w' =
    (syslog w ++
     [(spdk_log_to_syslog_level level,
       message_text E level file line func format ap)])%list.
Proof.
  intros w' Hne. subst w'.
  destruct (g_log w) as [f|] eqn:Hg.
  { rewrite (spdk_vlog_override E w f level file line func format ap Hg) in Hne.
    exfalso. apply Hne. reflexivity. }
  destruct (level_filtered level (g_spdk_log_print_level w) (g_spdk_log_level w))
    eqn:Hf.
  { rewrite (spdk_vlog_filtered E w level file line func format ap Hg Hf) in Hne.
    exfalso. apply Hne. reflexivity. }
  destruct (level_eq_dec level SPDK_LOG_DISABLED) as [Hd|Hd].
  { subst level. rewrite (spdk_vlog_disabled E w file line func format ap Hg) in Hne.
    exfalso. apply Hne. reflexivity. }
  destruct (spdk_vlog_dispatch E w level file line func format ap Hg Hf Hd)
    as [Hno Hyes].
  destruct (fst (log_print_ratelimit E w)) eqn:Hok.
  2: { rewrite (Hno eq_refl) in Hne. exfalso. apply Hne.
       apply (gate_frame E w). }
  destruct (Hyes eq_refl) as (_ & _ & H2 & _).
  destruct (Z.leb_spec (level_ord level) (level_ord (g_spdk_log_level w)))
    as [Hle|Hgt].
  2: { exfalso. apply Hne. rewrite H2. apply app_nil_r. }
  repeat split; try assumption; try reflexivity.
  intros Hdis. rewrite Hdis in Hle. destruct level; cbn in Hle; try lia.
  congruence.
Qed.

Lemma syslog_written_only_when_eligible_witness :
  fst (log_print_ratelimit E_demo w_fresh) = true /\
  syslog (snd (spdk_vlog E_demo SPDK_LOG_ERROR (Some "nvme.c") 7
                 (Some "probe") "no device" [] w_fresh)) =
    [(LOG_ERR, "nvme.c:   7:probe: *ERROR*: no device")].
Proof.
  destruct (syslog_written_only_when_eligible E_demo w_fresh SPDK_LOG_ERROR
              (Some "nvme.c") 7 (Some "probe") "no device" []
              ltac:(vm_compute; discriminate)) as (_ & _ & _ & _ & H1 & H2).
  split; [exact H1|exact H2].
Defined.

(** X11.  Logging a message never changes the configuration (override,
    timestamp switch, both thresholds, interval and burst) and never removes
    output: the console gains at most two entries, syslog at most one and the
    override trace at most one. *)
Theorem spdk_vlog_frame (E : env) (w : world)
    (level : spdk_log_level) (file : option string) (line : Z)
    (func : option string) (format : string) (ap : va_list) :
  let w' := snd (spdk_vlog E level file line func format ap w) in
  g_log w' = g_log w /\ g_log_timestamps w' = g_log_timestamps w /\
  g_spdk_log_level w' = g_spdk_log_level w /\
  g_spdk_log_print_level w' = g_spdk_log_print_level w /\
  interval (g_rs w') = interval (g_rs w) /\
  burst (g_rs w') = burst (g_rs w) /\
  (exists out, stderr w' = (stderr w ++ out)%list /\ (List.length out <= 2)%nat) /\
  (exists out, syslog w' = (syslog w ++ out)%list /\ (List.length out <= 1)%nat) /\
  (exists cs, logfunc_calls w' = (logfunc_calls w ++ cs)%list /\
              (List.length cs <= 1)%nat).
Proof.
  intros w'. subst w'.
  assert (Hid : forall w0 : world, w0 = w ->
    g_log w0 = g_log w /\ g_log_timestamps w0 = g_log_timestamps w /\
    g_spdk_log_level w0 = g_spdk_log_level w /\
    g_spdk_log_print_level w0 = g_spdk_log_print_level w /\
    interval (g_rs w0) = interval (g_rs w) /\
    burst (g_rs w0) = burst (g_rs w) /\
    (exists out, stderr w0 = (stderr w ++ out)%list /\ (List.length out <= 2)%nat) /\
    (exists out, syslog w0 = (syslog w ++ out)%list /\ (List.length out <= 1)%nat) /\
    (exists cs, logfunc_calls w0 = (logfunc_calls w ++ cs)%list /\
                (List.length cs <= 1)%nat)).
  { intros w0 ->. repeat (split; [reflexivity|]).
    repeat split; exists []; rewrite app_nil_r; cbn; split; auto; lia. }
  destruct (g_log w) as [f|] eqn:Hg.
  { rewrite (spdk_vlog_override E w f level file line func format ap Hg).
    cbn. rewrite Hg. repeat (split; [reflexivity|]).
    split; [exists []; rewrite app_nil_r; cbn; split; auto; lia|].
    split; [exists []; rewrite app_nil_r; cbn; split; auto; lia|].
    eexists; split; [reflexivity|cbn; lia]. }
  destruct (level_filtered level (g_spdk_log_print_level w) (g_spdk_log_level w))
    eqn:Hf.
  { rewrite (spdk_vlog_filtered E w level file line func format ap Hg Hf).
    apply Hid. reflexivity. }
  destruct (level_eq_dec level SPDK_LOG_DISABLED) as [Hd|Hd].
  { subst level. rewrite (spdk_vlog_disabled E w file line func format ap Hg).
    apply Hid. reflexivity. }
  destruct (spdk_vlog_dispatch E w level file line func format ap Hg Hf Hd)
    as [Hno Hyes].
  pose proof (gate_frame E w) as (F1 & F2 & F3 & F4 & F5 & F6).
  pose proof (gate_limits_kept E w) as (L1 & L2).
  pose proof (gate_stderr_cases E w) as Hs.
  destruct (fst (log_print_ratelimit E w)) eqn:Hok.
  - destruct (Hyes eq_refl) as (R1 & R2 & R3 & R4 & R5 & R6 & R7 & R8).
    rewrite R1, R2, R3, R4, R5, R6, R7, R8, L1, L2.
    repeat (split; [reflexivity|]).
    split.
    + destruct Hs as [Hs|Hs]; rewrite Hs, <- ?app_assoc;
        eexists; (split; [reflexivity|]);
        destruct (level_ord level <=? level_ord (g_spdk_log_print_level w));
        cbn; lia.
    + split.
      * eexists; split; [reflexivity|].
        destruct (level_ord level <=? level_ord (g_spdk_log_level w)); cbn; lia.
      * exists []. rewrite app_nil_r. cbn. split; auto; lia.
  - rewrite (Hno eq_refl), F1, F2, F3, F4, F5, F6, L1, L2.
    repeat (split; [first [reflexivity|assumption]|]).
    split.
    + destruct Hs as [Hs|Hs]; rewrite Hs.
      * exists []. rewrite app_nil_r. cbn. split; auto; lia.
      * eexists; split; [reflexivity|cbn; lia].
    + split; exists []; rewrite app_nil_r; cbn; split; auto; lia.
Qed.

(** X12.  With timestamps switched off, logging a message never reads the
    real-time clock, not even for the summary line of the rate limiter. *)
Theorem timestamps_disabled_no_realtime_read (E : env) (w : world)
    (level : spdk_log_level) (file : option string) (line : Z)
    (func : option string) (format : string) (ap : va_list) :
  g_log_timestamps w = false ->
  real_reads (snd (spdk_vlog E level file line func format ap w)) = real_reads w.
Proof.
  intros Ht.
  pose proof (gate_real_reads_disabled E w Ht) as Hr.
  pose proof (gate_frame E w) as (_ & F2 & _ & F4 & _).
  unfold spdk_vlog.
  destruct (g_log w); [reflexivity|].
  destruct (level_filtered _ _ _); [reflexivity|].
  destruct (spdk_log_to_syslog_level level <? 0); [reflexivity|].
  unfold bind.
  destruct (log_print_ratelimit E w) as [ok w1]. cbn [fst snd] in *.
  destruct ok; cbn [negb]; [|exact Hr].
  rewrite get_timestamp_prefix_eq. unfold timestamp_world.
  rewrite F2, Ht.
  destruct (level_ord level <=? level_ord (g_spdk_log_print_level w1));
    destruct file; cbn;
    match goal with |- context [if ?c then _ else _] => destruct c end;
    cbn; exact Hr.
Qed.

Lemma timestamps_disabled_no_realtime_read_witness :
  real_reads (snd (spdk_vlog E_demo SPDK_LOG_ERROR (Some "nvme.c") 7
                     (Some "probe") "no device" [] w_untimed)) = 0%nat.
Proof.
  exact (timestamps_disabled_no_realtime_read E_demo w_untimed SPDK_LOG_ERROR
           (Some "nvme.c") 7 (Some "probe") "no device" [] eq_refl).
Defined.

(** ** The override *)

Lemma run_api_overridden (E : env) (o : api_op) (w : world) :
  g_log w <> None ->
  let w' := snd (run_api E o w) in
  g_log w' <> None /\ stderr w' = stderr w /\ syslog w' = syslog w /\
  mono_reads w' = mono_reads w /\ real_reads w' = real_reads w /\
  lock_tries w' = lock_tries w /\
  List.length (logfunc_calls w') =
    (List.length (logfunc_calls w) + (if is_log o then 1 else 0))%nat.
Proof.
  intros Hg. destruct o; cbn.
  - destruct logf; cbn; repeat split; auto; try lia; discriminate.
  - repeat split; auto; lia.
  - repeat split; auto; lia.
  - repeat split; auto; lia.
  - repeat split; auto; lia.
  - repeat split; auto; lia.
  - unfold spdk_log. destruct (g_log w) as [f|] eqn:Hf; [|congruence].
    rewrite (spdk_vlog_override E w f level file line func format ap Hf).
    cbn. rewrite ?Hf, length_app. cbn. repeat split; auto.
Qed.

(** X13.  An override, once installed, is permanent: whatever calls of the
    interface follow ([spdk_log_open(NULL)] included), an override stays
    installed, nothing is written to the console or to syslog, neither clock
    is read, the limiter's lock is never tried, and every log call is handed
    to an override. *)
Theorem override_is_permanent (E : env) (os : list api_op) (w : world) :
  g_log w <> None ->
  let w' := snd (run_apis E os w) in
  g_log w' <> None /\ stderr w' = stderr w /\ syslog w' = syslog w /\
  mono_reads w' = mono_reads w /\ real_reads w' = real_reads w /\
  lock_tries w' = lock_tries w /\
  List.length (logfunc_calls w') =
    (List.length (logfunc_calls w) + List.length (filter is_log os))%nat.
Proof.
  revert w. induction os as [|o os IH]; intros w Hg; cbn.
  { repeat split; auto; lia. }
  pose proof (run_api_overridden E o w Hg) as (H1 & H2 & H3 & H4 & H5 & H6 & H7).
  unfold bind. destruct (run_api E o w) as [[] w1]. cbn [snd] in *.
  destruct (IH w1 H1) as (I1 & I2 & I3 & I4 & I5 & I6 & I7).
  repeat split; try congruence.
  rewrite I7, H7. destruct (is_log o); cbn; lia.
Qed.

Lemma override_is_permanent_witness :
  let w' := snd (run_apis E_demo
                   [ApiOpen None;
                    ApiLog SPDK_LOG_ERROR (Some "nvme.c") 7 (Some "probe")
                      "no device" [];
                    ApiSetPrintLevel SPDK_LOG_DEBUG;
                    ApiLog SPDK_LOG_DEBUG None 0 None "tick" []]
                   w_override) in
  g_log w' <> None /\ stderr w' = [] /\ syslog w' = [] /\
  List.length (logfunc_calls w') = 2%nat.
Proof.
  destruct (override_is_permanent E_demo
              [ApiOpen None;
               ApiLog SPDK_LOG_ERROR (Some "nvme.c") 7 (Some "probe")
                 "no device" [];
               ApiSetPrintLevel SPDK_LOG_DEBUG;
               ApiLog SPDK_LOG_DEBUG None 0 None "tick" []]
              w_override ltac:(discriminate))
    as (H1 & H2 & H3 & _ & _ & _ & H7).
  split; [exact H1|]. split; [exact H2|]. split; [exact H3|exact H7].
Defined.

(** ** Reading the hex dump *)

Lemma unhex2_hex2_check (b : byte) :
  match hex2 b with
  | String c1 (String c2 EmptyString) =>
      match unhex2 c1 c2 with
      | Some b' => Byte.eqb b b' && negb (Ascii.eqb c1 " ")
      | None => false
      end
  | _ => false
  end = true.
Proof. destruct b; vm_compute; reflexivity. Qed.

Lemma unhex2_hex2 (b : byte) :
  exists c1 c2, hex2 b = String c1 (String c2 EmptyString) /\
                unhex2 c1 c2 = Some b /\ c1 <> " "%char.
Proof.
  pose proof (unhex2_hex2_check b) as H.
  destruct (hex2 b) as [|c1 [|c2 [|c3 s]]]; try discriminate.
  exists c1, c2. split; [reflexivity|].
  destruct (unhex2 c1 c2) as [b'|]; [|discriminate].
  apply andb_true_iff in H. destruct H as [H1 H2].
  apply Byte.byte_dec_bl in H1. subst b'. split; [reflexivity|].
  intros ->. discriminate.
Qed.

Lemma skip_chars_append (a b : string) :
  skip_chars (String.length a) (a ++ b) = b.
Proof. induction a as [|c a IH]; cbn; [destruct b; reflexivity|exact IH]. Qed.

Lemma unhex2_blank (c : ascii) : unhex2 " " c = None.
Proof. reflexivity. Qed.

Lemma parse_cells_blank (fuel j : nat) (t : string) :
  parse_cells fuel j ("  " ++ t) = [].
Proof.
  destruct fuel as [|f]; [reflexivity|]. cbn [parse_cells append].
  destruct ((j =? 0) || (j =? 8))%nat.
  - destruct t as [|c2 [|c3 t]]; try reflexivity.
    rewrite unhex2_blank. destruct c3 as [[] [] [] [] [] [] [] []]; reflexivity.
  - destruct t as [|c3 t]; try reflexivity.
    rewrite unhex2_blank. destruct c3 as [[] [] [] [] [] [] [] []]; reflexivity.
Qed.

Lemma parse_cells_row (bs : list byte) (j : nat) (tail : string) :
  (j + List.length bs <= 16)%nat ->
  (j + List.length bs = 16)%nat \/ (exists t, tail = "  " ++ t) ->
  parse_cells (16 - j) j (row_cells j bs ++ tail) = bs.
Proof.
  revert j. induction bs as [|b bs IH]; intros j Hj Hstop.
  - cbn [row_cells List.length append] in *.
    destruct Hstop as [H16|[t ->]].
    + replace (16 - j)%nat with 0%nat by lia. reflexivity.
    + apply parse_cells_blank.
  - cbn [row_cells List.length] in *.
    destruct (unhex2_hex2 b) as (c1 & c2 & Hh & Hu & Hc). rewrite Hh.
    replace (16 - j)%nat with (S (16 - S j)) by lia.
    cbn [parse_cells]. unfold group_gap.
    destruct ((j =? 0) || (j =? 8))%nat; cbn [append]; rewrite Hu; f_equal;
      apply IH; try lia; destruct Hstop as [H|H]; [left; lia|right; exact H|left; lia|right; exact H].
Qed.

Lemma blanks_then_two (n : nat) (x : string) :
  repeat_char " " n ++ "  " ++ x = "  " ++ (repeat_char " " n ++ x).
Proof.
  induction n as [|n IH]; [reflexivity|].
  cbn [repeat_char append] in *. rewrite IH. reflexivity.
Qed.

Lemma row_bytes_cells (off : Z) (bs : list byte) (tail : string) :
  (List.length bs <= 16)%nat ->
  (List.length bs = 16)%nat \/ (exists t, tail = "  " ++ t) ->
  row_bytes (row_head off bs ++ tail) = bs.
Proof.
  intros Hlen Hstop. unfold row_bytes, row_head.
  replace ((hex8 off ++ " " ++ row_cells 0 bs) ++ tail)
    with ((hex8 off ++ " ") ++ (row_cells 0 bs ++ tail))
    by (rewrite !append_assoc; reflexivity).
  replace 9%nat with (String.length (hex8 off ++ " "))
    by (rewrite length_append, length_hex8; reflexivity).
  rewrite skip_chars_append.
  apply (parse_cells_row bs 0 tail); [exact Hlen|].
  destruct Hstop as [H|H]; [left; exact H|right; exact H].
Qed.

Lemma row_bytes_middle (r : Z * list byte) :
  List.length (snd r) = 16%nat -> row_bytes (middle_row r) = snd r.
Proof.
  intros H. unfold middle_row. apply row_bytes_cells; [lia|left; exact H].
Qed.

Lemma row_bytes_final (r : Z * list byte) (n : nat) :
  (List.length (snd r) <= 16)%nat ->
  row_bytes (final_row (repeat_char " " n) r) = snd r.
Proof.
  intros H. unfold final_row. apply row_bytes_cells; [exact H|].
  right. eexists. apply blanks_then_two.
Qed.

(** The rows of a buffer: all but the last are full, the last holds 1 to 16
    bytes, and together they are the buffer. *)
Lemma rows_from_shape (fuel : nat) (off : Z) (l : list byte) :
  (List.length l <= fuel)%nat -> l <> [] ->
  let R := rows_from fuel off l in
  R <> [] /\
  Forall (fun r => List.length (snd r) = 16%nat) (removelast R) /\
  (1 <= List.length (snd (last R (0%Z, []))) <= 16)%nat /\
  List.concat (map snd R) = l /\
  List.length R = ((List.length l + 15) / 16)%nat /\
  ((List.length l <= 8)%nat <->
   (List.length R = 1%nat /\ (List.length (snd (last R (0%Z, []))) <= 8)%nat)).
Proof.
  revert off l. induction fuel as [|f IH]; intros off l Hf Hne.
  { destruct l; [contradiction|cbn in Hf; lia]. }
  destruct l as [|x l]; [contradiction|].
  intros R. subst R. rewrite rows_from_cons.
  assert (Hl0 : (1 <= List.length (x :: l))%nat) by (cbn; lia).
  remember (x :: l) as l0 eqn:Hdef. clear Hdef Hne.
  destruct (skipn 16 l0) as [|y rest] eqn:Hs.
  - assert (Hle : (List.length l0 <= 16)%nat).
    { pose proof (length_skipn 16 l0) as H. rewrite Hs in H. cbn in H. lia. }
    rewrite rows_from_nil, firstn_all2 by exact Hle.
    cbn [removelast last snd map List.concat List.length].
    rewrite app_nil_r.
    split; [discriminate|]. split; [constructor|]. split; [lia|].
    split; [reflexivity|]. split.
    + apply (Nat.div_unique _ 16 1 (List.length l0 - 1)); lia.
    + lia.
  - assert (Hlen : List.length (skipn 16 l0) = (List.length l0 - 16)%nat)
      by apply length_skipn.
    rewrite Hs in Hlen.
    assert (Hgt : (16 < List.length l0)%nat) by (cbn [List.length] in Hlen; lia).
    assert (Hfirst : List.length (firstn 16 l0) = 16%nat)
      by (rewrite length_firstn; lia).
    destruct (IH (off + 16) (y :: rest)) as (I1 & I2 & I3 & I4 & I5 & I6);
      [lia|discriminate|].
    set (R' := rows_from f (off + 16) (y :: rest)) in *.
    destruct R' as [|r' R''] eqn:HR'; [contradiction|].
    rewrite <- HR' in *.
    split; [discriminate|].
    assert (Hrl : removelast ((off, firstn 16 l0) :: R') =
                  (off, firstn 16 l0) :: removelast R')
      by (rewrite HR'; reflexivity).
    assert (Hla : last ((off, firstn 16 l0) :: R') (0, []) = last R' (0, []))
      by (rewrite HR'; reflexivity).
    rewrite Hrl, Hla.
    split; [constructor; [exact Hfirst|exact I2]|].
    split; [exact I3|].
    split.
    { cbn [map List.concat snd]. rewrite I4, <- Hs. apply firstn_skipn. }
    split.
    { cbn [List.length]. rewrite I5, Hlen.
      replace (List.length l0 + 15)%nat with ((List.length l0 - 16 + 15) + 1 * 16)%nat by lia.
      rewrite Nat.div_add by lia. lia. }
    cbn [List.length].
    assert (1 <= List.length R')%nat by (rewrite HR'; cbn; lia).
    lia.
Qed.

Lemma rows_shape (buf : list byte) :
  buf <> [] ->
  let R := rows buf in
  R <> [] /\
  Forall (fun r => List.length (snd r) = 16%nat) (removelast R) /\
  (1 <= List.length (snd (last R (0%Z, []))) <= 16)%nat /\
  List.concat (map snd R) = buf /\
  List.length R = ((List.length buf + 15) / 16)%nat /\
  ((List.length buf <= 8)%nat <->
   (List.length R = 1%nat /\ (List.length (snd (last R (0%Z, []))) <= 8)%nat)).
Proof. intros Hne. apply rows_from_shape; [lia|exact Hne]. Qed.

Lemma concat_map_ext_in {A B : Type} (f g : A -> list B) (l : list A) :
  Forall (fun a => f a = g a) l ->
  List.concat (map f l) = List.concat (map g l).
Proof. induction 1 as [|a l Ha _ IH]; cbn; [reflexivity|now rewrite Ha, IH]. Qed.

(** X14.  The hex dump loses nothing: reading the hex cells of the lines
    after the label gives back exactly the bytes that were dumped, so two
    different buffers never have the same dump. *)
Theorem dump_round_trip (label : string) (buf : list byte) :
  Z.of_nat (List.length buf) <= UINT_MAX ->
  dump_bytes (spdk_log_dump label buf) = buf /\
  (forall buf' : list byte,
     Z.of_nat (List.length buf') <= UINT_MAX ->
     spdk_log_dump label buf' = spdk_log_dump label buf -> buf' = buf).
Proof.
  assert (Hrt : forall b : list byte, Z.of_nat (List.length b) <= UINT_MAX ->
                dump_bytes (spdk_log_dump label b) = b).
  { intros b Hlen. unfold spdk_log_dump, dump_bytes.
    destruct b as [|x rest]; [reflexivity|].
    rewrite fdump_exact by exact Hlen. cbn [tl].
    destruct (rows_shape (x :: rest)) as (S1 & S2 & S3 & S4 & _); [discriminate|].
    rewrite map_app, concat_app, map_map.
    rewrite (concat_map_ext_in (fun r => row_bytes (middle_row r)) snd).
    2: { eapply Forall_impl; [|exact S2]. intros r Hr. apply row_bytes_middle. exact Hr. }
    cbn [map List.concat]. unfold blank_columns.
    rewrite row_bytes_final by lia. rewrite app_nil_r.
    rewrite <- S4 at 3.
    rewrite (app_removelast_last (0, []) S1) at 3.
    rewrite map_app, concat_app. cbn [map List.concat]. rewrite app_nil_r.
    reflexivity. }
  intros Hlen. split; [apply Hrt; exact Hlen|].
  intros buf' Hlen' Heq.
  rewrite <- (Hrt buf' Hlen'), <- (Hrt buf Hlen), Heq. reflexivity.
Qed.

Lemma dump_round_trip_witness :
  dump_bytes (spdk_log_dump "buf" bytes17) = bytes17.
Proof.
  destruct (dump_round_trip "buf" bytes17 ltac:(by_compute)) as (H & _).
  exact H.
Defined.

(** X15.  A dump has the label line and then one line for every sixteen
    bytes or part of them, and one line still when the buffer is empty. *)
Theorem dump_line_count (label : string) (buf : list byte) :
  Z.of_nat (List.length buf) <= UINT_MAX ->
  List.length (spdk_log_dump label buf) =
    (1 + Nat.max 1 ((List.length buf + 15) / 16))%nat.
Proof.
  intros Hlen. unfold spdk_log_dump.
  destruct buf as [|x rest]; [reflexivity|].
  rewrite fdump_exact by exact Hlen.
  destruct (rows_shape (x :: rest)) as (S1 & _ & _ & _ & S5 & _); [discriminate|].
  rewrite <- S5.
  assert (HR : List.length (rows (x :: rest)) =
               S (List.length (removelast (rows (x :: rest))))).
  { rewrite (app_removelast_last (0, []) S1) at 1.
    rewrite length_app. cbn. lia. }
  cbn [List.length]. rewrite length_app, length_map. cbn [List.length].
  rewrite HR. lia.
Qed.

Lemma dump_line_count_witness :
  List.length (spdk_log_dump "buf" bytes17) = 3%nat.
Proof.
  exact (dump_line_count "buf" bytes17 ltac:(by_compute)).
Defined.

Lemma length_row_cells_exact (bs : list byte) (j : nat) :
  String.length (row_cells j bs) =
    (3 * List.length bs +
     (if (j =? 0) && (0 <? List.length bs) then 1 else 0) +
     (if (j <=? 8) && (8 <? j + List.length bs) then 1 else 0))%nat.
Proof.
  revert j. induction bs as [|b bs IH]; intros j; cbn [row_cells List.length].
  - cbn [String.length]. rewrite Nat.add_0_r.
    destruct (Nat.eqb_spec j 0), (Nat.leb_spec j 8), (Nat.ltb_spec 8 j);
      cbn; lia.
  - rewrite !length_append, length_hex2, IH. cbn [String.length]. unfold group_gap.
    destruct (Nat.eqb_spec j 0), (Nat.eqb_spec j 8), (Nat.eqb_spec (S j) 0),
      (Nat.leb_spec j 8), (Nat.leb_spec (S j) 8),
      (Nat.ltb_spec 0 (List.length bs)), (Nat.ltb_spec 0 (S (List.length bs))),
      (Nat.ltb_spec 8 (S j + List.length bs)),
      (Nat.ltb_spec 8 (j + S (List.length bs)));
      cbn [orb andb String.length]; lia.
Qed.

Lemma length_row_head_exact (off : Z) (bs : list byte) :
  (1 <= List.length bs <= 16)%nat ->
  String.length (row_head off bs) =
    (9 + 3 * List.length bs + (if (List.length bs <=? 8)%nat then 1 else 2))%nat.
Proof.
  intros H. unfold row_head.
  rewrite !length_append, length_hex8, length_row_cells_exact.
  cbn [String.length Nat.eqb Nat.leb andb Nat.add].
  destruct (Nat.ltb_spec 0 (List.length bs)), (Nat.ltb_spec 8 (List.length bs)),
    (Nat.leb_spec (List.length bs) 8); lia.
Qed.

Lemma nth_error_removelast {A : Type} (l : list A) (d : A) (i : nat) :
  l <> [] ->
  nth_error l i =
    if (i <? List.length (removelast l))%nat then nth_error (removelast l) i
    else if (i =? List.length (removelast l))%nat then Some (last l d)
    else None.
Proof.
  intros Hne. rewrite (app_removelast_last d Hne) at 1.
  destruct (Nat.ltb_spec i (List.length (removelast l))) as [Hlt|Hge].
  - apply nth_error_app1. exact Hlt.
  - rewrite nth_error_app2 by exact Hge.
    destruct (Nat.eqb_spec i (List.length (removelast l))) as [->|Hn].
    + rewrite Nat.sub_diag. reflexivity.
    + destruct (i - List.length (removelast l))%nat as [|k] eqn:Hk; [lia|].
      destruct k; reflexivity.
Qed.

(** X16.  Where the text of a row starts.  Every line after the label is a
    prefix, the bytes of its row as text, and a newline.  In a row that is
    followed by another the prefix is 60 characters long.  In the last row it
    is 61 characters long, one more, except when the dump has several rows
    and the last one holds at most eight bytes: only then does the text of
    the last row stand under the text of the rows above. *)
Theorem dump_text_column (label : string) (buf : list byte) (i : nat)
    (r : Z * list byte) :
  Z.of_nat (List.length buf) <= UINT_MAX ->
  nth_error (rows buf) i = Some r ->
  exists pre : string,
    nth_error (spdk_log_dump label buf) (S i) =
      Some (pre ++ ascii_col (snd r) ++ nl) /\
    String.length pre =
      text_column (List.length buf) (S i =? List.length (rows buf))%nat
        (List.length (snd r)).
Proof.
  intros Hlen Hr. unfold spdk_log_dump.
  destruct buf as [|x rest]; [destruct i; discriminate|].
  rewrite fdump_exact by exact Hlen.
  destruct (rows_shape (x :: rest)) as (S1 & S2 & S3 & _ & _ & S6); [discriminate|].
  set (R := rows (x :: rest)) in *.
  assert (HR : List.length R = S (List.length (removelast R))).
  { rewrite (app_removelast_last (0, []) S1) at 1.
    rewrite length_app. cbn. lia. }
  cbn [nth_error].
  rewrite (nth_error_removelast R (0, []) i S1) in Hr.
  destruct (Nat.ltb_spec i (List.length (removelast R))) as [Hlt|Hge].
  - (* a row followed by another *)
    rewrite nth_error_app1 by (rewrite length_map; exact Hlt).
    rewrite nth_error_map, Hr. cbn [option_map].
    assert (H16 : List.length (snd r) = 16%nat).
    { apply nth_error_In in Hr. rewrite Forall_forall in S2. apply S2. exact Hr. }
    exists (row_head (fst r) (snd r) ++ " ")%string. split.
    + unfold middle_row. rewrite !append_assoc. reflexivity.
    + rewrite length_append, length_row_head_exact, H16 by lia.
      assert (Hn : (S i =? List.length R)%nat = false)
        by (apply Nat.eqb_neq; lia).
      rewrite Hn. reflexivity.
  - destruct (Nat.eqb_spec i (List.length (removelast R))) as [Hi|Hi];
      [|discriminate].
    assert (Hlast : last R (0, []) = r) by congruence.
    clear Hr. subst i.
    rewrite nth_error_app2 by (rewrite length_map; lia).
    rewrite length_map, Nat.sub_diag. cbn [nth_error].
    rewrite Hlast in *.
    set (k := List.length (snd r)) in *.
    set (gap := if (List.length (x :: rest) <=? 8)%nat then 1%nat else 0%nat).
    exists (row_head (fst r) (snd r) ++ blank_columns k gap ++ "  ")%string.
    split.
    + unfold final_row. rewrite !append_assoc. reflexivity.
    + rewrite !length_append, length_row_head_exact by (fold k; lia).
      unfold blank_columns. rewrite length_repeat_char. fold k.
      cbn [String.length].
      assert (Hn : (S (List.length (removelast R)) =? List.length R)%nat = true)
        by (apply Nat.eqb_eq; lia).
      rewrite Hn. unfold text_column. subst gap.
      destruct (Nat.leb_spec (List.length (x :: rest)) 8) as [H8|H8],
        (Nat.leb_spec k 8) as [Hk|Hk],
        (Nat.ltb_spec 8 (List.length (x :: rest))) as [H9|H9];
        cbn [andb]; lia.
Qed.

Lemma dump_text_column_witness :
  exists pre : string,
    nth_error (spdk_log_dump "buf" bytes17) 2 =
      Some (pre ++ ascii_col (list_byte_of_string "Q") ++ nl) /\
    String.length pre = 60%nat.
Proof.
  exact (dump_text_column "buf" bytes17 1 (16, list_byte_of_string "Q")
           ltac:(by_compute) eq_refl).
Defined.

Lemma all_printable_app (a b : string) :
  all_printable (a ++ b) = all_printable a && all_printable b.
Proof.
  induction a as [|c a IH]; cbn; [reflexivity|].
  rewrite IH. apply andb_assoc.
Qed.

Lemma printable_digit_char (d : Z) :
  0 <= d < 16 -> printable (digit_char d) = true.
Proof.
  intros H.
  assert (Hd : d = 0 \/ d = 1 \/ d = 2 \/ d = 3 \/ d = 4 \/ d = 5 \/ d = 6 \/
               d = 7 \/ d = 8 \/ d = 9 \/ d = 10 \/ d = 11 \/ d = 12 \/
               d = 13 \/ d = 14 \/ d = 15) by lia.
  repeat (destruct Hd as [->|Hd]; [reflexivity|]). subst d. reflexivity.
Qed.

Lemma printable_hex_digits (width : nat) (n : Z) :
  all_printable (fixed_digits 16 width n) = true.
Proof.
  revert n. induction width as [|k IH]; intros n; cbn [fixed_digits]; [reflexivity|].
  rewrite all_printable_app, IH. cbn [all_printable andb].
  rewrite printable_digit_char; [reflexivity|].
  apply Z.mod_pos_bound. lia.
Qed.

Lemma printable_display_char (b : byte) : printable (display_char b) = true.
Proof. destruct b; vm_compute; reflexivity. Qed.

Lemma printable_ascii_col (bs : list byte) : all_printable (ascii_col bs) = true.
Proof.
  unfold ascii_col. induction bs as [|b bs IH]; cbn; [reflexivity|].
  fold (all_printable (string_of_list_ascii (map display_char bs))).
  rewrite printable_display_char. exact IH.
Qed.

Lemma printable_blanks (n : nat) : all_printable (repeat_char " " n) = true.
Proof. induction n as [|n IH]; [reflexivity|exact IH]. Qed.

Lemma printable_row_cells (bs : list byte) (j : nat) :
  all_printable (row_cells j bs) = true.
Proof.
  revert j. induction bs as [|b bs IH]; intros j; cbn [row_cells]; [reflexivity|].
  rewrite !all_printable_app, IH. unfold hex2. rewrite printable_hex_digits.
  unfold group_gap. destruct ((j =? 0) || (j =? 8))%nat; reflexivity.
Qed.

Lemma printable_row_head (off : Z) (bs : list byte) :
  all_printable (row_head off bs) = true.
Proof.
  unfold row_head, hex8.
  rewrite !all_printable_app, printable_hex_digits, printable_row_cells.
  reflexivity.
Qed.

(** X17.  Whatever bytes are dumped, every line after the label consists of
    printable ASCII characters followed by one newline: no byte of the buffer
    can put a control character or a line break of its own into the dump. *)
Theorem dump_rows_printable (label : string) (buf : list byte) (line : string) :
  Z.of_nat (List.length buf) <= UINT_MAX ->
  In line (tl (spdk_log_dump label buf)) ->
  exists body : string, line = body ++ nl /\ all_printable body = true.
Proof.
  intros Hlen Hin. unfold spdk_log_dump in Hin.
  destruct buf as [|x rest].
  { cbn in Hin. destruct Hin as [<-|[]]. exists "  ". split; reflexivity. }
  rewrite fdump_exact in Hin by exact Hlen. cbn [tl] in Hin.
  apply in_app_or in Hin. destruct Hin as [Hin|[<-|[]]].
  - apply in_map_iff in Hin. destruct Hin as (r & <- & _).
    exists (row_head (fst r) (snd r) ++ " " ++ ascii_col (snd r)). split.
    + unfold middle_row. rewrite !append_assoc. reflexivity.
    + rewrite !all_printable_app, printable_row_head, printable_ascii_col.
      reflexivity.
  - match goal with |- context [final_row ?p ?r] =>
      exists (row_head (fst r) (snd r) ++ p ++ "  " ++ ascii_col (snd r)) end.
    split.
    + unfold final_row. rewrite !append_assoc. reflexivity.
    + unfold blank_columns.
      rewrite !all_printable_app, printable_row_head, printable_ascii_col,
        printable_blanks.
      reflexivity.
Qed.

Lemma dump_rows_printable_witness :
  exists body : string,
    (("00000010  51 " ++ repeat_char " " 45 ++ "  Q") ++ nl)%string = body ++ nl /\
    all_printable body = true.
Proof.
  exact (dump_rows_printable "buf" bytes17
           (("00000010  51 " ++ repeat_char " " 45 ++ "  Q") ++ nl)%string
           ltac:(by_compute) ltac:(vm_compute; right; left; reflexivity)).
Defined.
